(** * sas26: packet ledger, counters and KPIs of the LoRaWAN scenario script

    A shallow embedding of the trace callbacks and report functions of
    [src/sas26.cc].  The script keeps its whole state in global variables;
    they are modelled as one store, [State], indexed by the names of the
    globals.  C++ [int] is a 32-bit two's-complement integer whose
    arithmetic is taken to wrap around ([wrap32]), [double] is IEEE 754
    binary64 (Rocq's primitive floats), and the simulator clock is a
    parameter [now] of the callbacks that read it, in nanoseconds.
    Indexing a [std::vector] or the node container out of range is
    undefined behaviour in C++; here such a call has no result ([None]). *)

From Stdlib Require Import ZArith Lia Floats Uint63.
From stdpp Require Import base option gmap list strings.

Local Open Scope Z_scope.

(** ** Machine integers and doubles *)

Module Int.

(** Value of a C++ [int] after a conversion or an arithmetic operation:
    the representative of [z] modulo 2^32 in [-2^31, 2^31). *)
Definition wrap32 (z : Z) : Z := (z + 2 ^ 31) mod 2 ^ 32 - 2 ^ 31.

(** Conversions to the unsigned types the script uses. *)
Definition to_uint32 (z : Z) : Z := z mod 2 ^ 32.
Definition to_uint8 (z : Z) : Z := z mod 2 ^ 8.

(** [a + b], [a * b] and [n++] on [int]. *)
Definition add (a b : Z) : Z := wrap32 (a + b).
Definition mul (a b : Z) : Z := wrap32 (a * b).
Definition incr (n : Z) : Z := wrap32 (n + 1).

End Int.

Module Double.

(** Conversion of an integer of magnitude below 2^63 to [double]
    (round to nearest, symmetric in the sign). *)
Definition of_int (z : Z) : float :=
  match z with
  | Z0 => 0%float
  | Zpos _ => PrimFloat.of_uint63 (Uint63.of_Z z)
  | Zneg p => (- PrimFloat.of_uint63 (Uint63.of_Z (Zpos p)))%float
  end.

(** The C++ comparison [x != y] on doubles. *)
Definition neqb (x y : float) : bool := negb (x =? y)%float.

End Double.

(** ** Packets and their tags *)

(** Modelled from the spec: the message types of [ns3/app-tag.h], which is
    not part of the sources.  The script only tests a tag against [IMR] and
    [PCC]; every other value is [OtherMsg]. *)
Inductive MsgType := IMR | PCC | OtherMsg.

#[global] Instance MsgType_eq_dec : EqDecision MsgType.
Proof. solve_decision. Defined.

(** What the callbacks read from a packet: its uid ([uint64_t]), the
    [LoraTag] (receive power, spreading factor as [uint8_t]) and the
    [AppTag]. *)
Record Packet := {
  GetUid : Z;
  GetReceivePower : float;
  GetSpreadingFactor : Z;
  GetMsgType : MsgType
}.

(** [(int) pkt->GetUid()] *)
Definition pktIdOf (pkt : Packet) : Z := Int.wrap32 (GetUid pkt).

(** ** Data structures *)

Inductive PktStatus := SENT | OK | LOST | EXPIRED.

#[global] Instance PktStatus_eq_dec : EqDecision PktStatus.
Proof. solve_decision. Defined.

Record PacketInfo := {
  m_pktId : Z;
  m_edId : Z;
  m_txTime : float;
  m_delay : float;
  m_cpsrDelay : float;
  m_status : PktStatus
}.

(** The constructor [PacketInfo(pktId, edId, txTime)]. *)
Definition mkPacketInfo (pktId edId : Z) (txTime : float) : PacketInfo :=
  {| m_pktId := pktId; m_edId := edId; m_txTime := txTime;
     m_delay := (-1)%float; m_cpsrDelay := (-1)%float; m_status := SENT |}.

Definition set_delay (d : float) (i : PacketInfo) : PacketInfo :=
  {| m_pktId := m_pktId i; m_edId := m_edId i; m_txTime := m_txTime i;
     m_delay := d; m_cpsrDelay := m_cpsrDelay i; m_status := m_status i |}.

Definition set_cpsrDelay (d : float) (i : PacketInfo) : PacketInfo :=
  {| m_pktId := m_pktId i; m_edId := m_edId i; m_txTime := m_txTime i;
     m_delay := m_delay i; m_cpsrDelay := d; m_status := m_status i |}.

Definition set_status (st : PktStatus) (i : PacketInfo) : PacketInfo :=
  {| m_pktId := m_pktId i; m_edId := m_edId i; m_txTime := m_txTime i;
     m_delay := m_delay i; m_cpsrDelay := m_cpsrDelay i; m_status := st |}.

(** The global variables, by type. *)
Inductive IntVar :=
  | nSent | nRec | nRetx | nReqTx | nRecAck
  | nTotalPkts | nLost | nInterf | nUnder | nBusy | nNoMore | nExpired
  | nSentPerHour | nRecPerHour
  | nImrSent | nPccSent | nImrRec | nPccRec.

Inductive DblVar :=
  | sumDelay | sumRssi | sumPktsRssi | sumSnr | sumPktsSnr | consumption.

(** [std::vector<int>] globals. *)
Inductive IntVec :=
  | sfDist | interfPerSf | underPerSf | expPerSf | busyPerSf | noMorePerSf.

(** [std::vector<uint64_t>] globals. *)
Inductive IdVec :=
  | expiredPkts | interfPkts | underPkts | busyPkts | noMorePkts | okPkts.

#[global] Instance IntVar_eq_dec : EqDecision IntVar.
Proof. solve_decision. Defined.
#[global] Instance DblVar_eq_dec : EqDecision DblVar.
Proof. solve_decision. Defined.
#[global] Instance IntVec_eq_dec : EqDecision IntVec.
Proof. solve_decision. Defined.
#[global] Instance IdVec_eq_dec : EqDecision IdVec.
Proof. solve_decision. Defined.

(** The state of the script.  [endDevices] holds, for each node of the
    container, the data rate of its MAC layer, the only device attribute a
    callback writes. *)
Record State := {
  pktInfoMap : gmap Z PacketInfo;
  ints : IntVar -> Z;
  dbls : DblVar -> float;
  ivecs : IntVec -> list Z;
  idvecs : IdVec -> list Z;
  pdrsPerHourVec : list float;
  delayPerApp : list float;
  endDevices : list Z
}.

(** The settings read from the command line, fixed during a run. *)
Record Config := {
  nDevices : Z;
  simulationTimeSeconds : float;
  payloadSize : Z;
  txMode : string;
  sfa : string
}.

Definition imrDelay : float := 60000%float.
Definition pccDelay : float := 1000%float.

(** The defaults of the script: 200 devices, one day, 51 bytes, no
    acknowledgements, no allocation scheme. *)
Definition default_config : Config :=
  {| nDevices := 200; simulationTimeSeconds := 86400%float;
     payloadSize := 51; txMode := "nack"; sfa := "" |}.

(** The globals as initialised at program start, for a container of
    devices with the given data rates. *)
Definition initial_state (devs : list Z) : State :=
  {| pktInfoMap := ∅;
     ints := fun _ => 0;
     dbls := fun _ => 0%float;
     ivecs := fun _ => replicate 6 0;
     idvecs := fun _ => [];
     pdrsPerHourVec := [];
     delayPerApp := [0%float; 0%float];
     endDevices := devs |}.

(** *** Assignments to one global *)

Definition set_map (m : gmap Z PacketInfo) (s : State) : State :=
  {| pktInfoMap := m; ints := ints s; dbls := dbls s; ivecs := ivecs s;
     idvecs := idvecs s; pdrsPerHourVec := pdrsPerHourVec s;
     delayPerApp := delayPerApp s; endDevices := endDevices s |}.

Definition set_int (x : IntVar) (v : Z) (s : State) : State :=
  {| pktInfoMap := pktInfoMap s;
     ints := fun y => if decide (y = x) then v else ints s y;
     dbls := dbls s; ivecs := ivecs s;
     idvecs := idvecs s; pdrsPerHourVec := pdrsPerHourVec s;
     delayPerApp := delayPerApp s; endDevices := endDevices s |}.

Definition set_dbl (x : DblVar) (v : float) (s : State) : State :=
  {| pktInfoMap := pktInfoMap s; ints := ints s;
     dbls := fun y => if decide (y = x) then v else dbls s y;
     ivecs := ivecs s;
     idvecs := idvecs s; pdrsPerHourVec := pdrsPerHourVec s;
     delayPerApp := delayPerApp s; endDevices := endDevices s |}.

Definition set_ivec (x : IntVec) (v : list Z) (s : State) : State :=
  {| pktInfoMap := pktInfoMap s; ints := ints s; dbls := dbls s;
     ivecs := fun y => if decide (y = x) then v else ivecs s y;
     idvecs := idvecs s; pdrsPerHourVec := pdrsPerHourVec s;
     delayPerApp := delayPerApp s; endDevices := endDevices s |}.

Definition set_idvec (x : IdVec) (v : list Z) (s : State) : State :=
  {| pktInfoMap := pktInfoMap s; ints := ints s; dbls := dbls s;
     ivecs := ivecs s;
     idvecs := fun y => if decide (y = x) then v else idvecs s y;
     pdrsPerHourVec := pdrsPerHourVec s;
     delayPerApp := delayPerApp s; endDevices := endDevices s |}.

Definition set_pdrsPerHourVec (v : list float) (s : State) : State :=
  {| pktInfoMap := pktInfoMap s; ints := ints s; dbls := dbls s;
     ivecs := ivecs s; idvecs := idvecs s; pdrsPerHourVec := v;
     delayPerApp := delayPerApp s; endDevices := endDevices s |}.

Definition set_delayPerApp (v : list float) (s : State) : State :=
  {| pktInfoMap := pktInfoMap s; ints := ints s; dbls := dbls s;
     ivecs := ivecs s; idvecs := idvecs s;
     pdrsPerHourVec := pdrsPerHourVec s;
     delayPerApp := v; endDevices := endDevices s |}.

Definition set_endDevices (v : list Z) (s : State) : State :=
  {| pktInfoMap := pktInfoMap s; ints := ints s; dbls := dbls s;
     ivecs := ivecs s; idvecs := idvecs s;
     pdrsPerHourVec := pdrsPerHourVec s;
     delayPerApp := delayPerApp s; endDevices := v |}.

(** [x++], [x += d], [v.push_back(id)]. *)
Definition inc (x : IntVar) (s : State) : State :=
  set_int x (Int.incr (ints s x)) s.

Definition add_dbl (x : DblVar) (d : float) (s : State) : State :=
  set_dbl x (dbls s x + d)%float s.

Definition push_back (v : IdVec) (id : Z) (s : State) : State :=
  set_idvec v (idvecs s v ++ [id]) s.

(** [v[i]] for an index [i] given as an integer: there is an element only
    when [0 <= i < v.size()]. *)
Definition at_index {A} (l : list A) (i : Z) : option A :=
  if decide (0 <= i < Z.of_nat (length l)) then l !! Z.to_nat i else None.

(** [v[index]++] on a vector of counters; [index] is an [int], and there
    is a result only when it addresses an element. *)
Definition vec_incr (v : IntVec) (index : Z) (s : State) : option State :=
  match at_index (ivecs s v) index with
  | Some n => Some (set_ivec v (<[Z.to_nat index := Int.incr n]> (ivecs s v)) s)
  | None => None
  end.

(** [delayPerApp[i] += d] *)
Definition delayPerApp_add (i : nat) (d : float) (s : State) : option State :=
  match delayPerApp s !! i with
  | Some x => Some (set_delayPerApp (<[i := (x + d)%float]> (delayPerApp s)) s)
  | None => None
  end.

(** ** The trace callbacks *)

(** [Simulator::Now().GetNanoSeconds() * 1e-6]: the simulated time in
    milliseconds, from the clock reading [now] in nanoseconds. *)
Definition nowMs (now : Z) : float :=
  (Double.of_int now * 0x1.0c6f7a0b5ed8dp-20)%float.

(** [log10(125e3)], the value of the C library for the default bandwidth,
    the only one the script passes. *)
Definition log10_bandwidth : float := 0x1.4633c60e2192p+2%float.

(** [RxPowerToSNR] with its default bandwidth (125 kHz) and noise figure
    (6 dB). *)
Definition RxPowerToSNR (transmissionPower : float) : float :=
  (transmissionPower + 174 - 10 * log10_bandwidth - 6)%float.

Definition GetEdId (pkt : Packet) (s : State) : Z :=
  match pktInfoMap s !! pktIdOf pkt with
  | None => -1
  | Some info => m_edId info
  end.

Definition ComputeLqi (pkt : Packet) (s : State) : State :=
  inc nTotalPkts
    (add_dbl sumPktsSnr (RxPowerToSNR (GetReceivePower pkt))
       (add_dbl sumPktsRssi (GetReceivePower pkt) s)).

Definition GetIndexBasedOnSf (pkt : Packet) : Z :=
  Int.wrap32 (GetSpreadingFactor pkt - 7).

Definition Sent (now : Z) (pkt : Packet) (edId : Z) (s : State) : State :=
  let pktId := pktIdOf pkt in
  match pktInfoMap s !! pktId with
  | Some _ => inc nRetx s
  | None =>
      let txTime := nowMs now in
      let pktInfo := set_status SENT (mkPacketInfo pktId (Int.wrap32 edId) txTime) in
      let s := set_map (<[pktId := pktInfo]> (pktInfoMap s)) s in
      let s := match GetMsgType pkt with
               | IMR => inc nImrSent s
               | PCC => inc nPccSent s
               | OtherMsg => s
               end in
      inc nSentPerHour (inc nSent s)
  end.

(** The three ways [Ok] classifies a first delivery. *)
Inductive Verdict := OnTimeImr | OnTimePcc | Late.

Definition classify (ty : MsgType) (delay : float) : Verdict :=
  match ty with
  | IMR => if (delay <=? imrDelay)%float then OnTimeImr else Late
  | PCC => if (delay <=? pccDelay)%float then OnTimePcc else Late
  | OtherMsg => Late
  end.

Definition Ok (now : Z) (pkt : Packet) (gwId : Z) (s : State) : option State :=
  let pktId := pktIdOf pkt in
  match pktInfoMap s !! pktId with
  | None => Some s
  | Some info =>
      let s := ComputeLqi pkt s in
      if Double.neqb (m_delay info) (-1)%float then Some s
      else
        let rssi := GetReceivePower pkt in
        let snr := RxPowerToSNR rssi in
        let s := add_dbl sumSnr snr (add_dbl sumRssi rssi s) in
        let delay := (nowMs now - m_txTime info)%float in
        let info := set_delay delay info in
        let s := add_dbl sumDelay delay s in
        match classify (GetMsgType pkt) delay with
        | OnTimeImr =>
            let s := set_map (<[pktId := set_status OK info]> (pktInfoMap s)) s in
            let s := inc nRecPerHour (inc nRec (inc nImrRec s)) in
            let s := push_back okPkts (GetUid pkt) s in
            delayPerApp_add 0 delay s
        | OnTimePcc =>
            let s := set_map (<[pktId := set_status OK info]> (pktInfoMap s)) s in
            let s := inc nRecPerHour (inc nRec (inc nPccRec s)) in
            let s := push_back okPkts (GetUid pkt) s in
            delayPerApp_add 1 delay s
        | Late =>
            let s := set_map (<[pktId := set_status EXPIRED info]> (pktInfoMap s)) s in
            let s := inc nExpired s in
            let s := push_back expiredPkts (GetUid pkt) s in
            vec_incr expPerSf (GetIndexBasedOnSf pkt) s
        end
  end.

(** [mac->SetDataRate(dr)] on the device in slot [i] of the container,
    reached through [endDevices.Get(i)] with [i] a [uint32_t]. *)
Definition SetDataRate (i : Z) (dr : Z) (s : State) : option State :=
  match at_index (endDevices s) i with
  | Some _ => Some (set_endDevices (<[Z.to_nat i := dr]> (endDevices s)) s)
  | None => None
  end.

(** The container index [Interf] passes to [endDevices.Get]: the [int]
    returned by [GetEdId], converted to [uint32_t]. *)
Definition Interf_node_index (pkt : Packet) (s : State) : Z :=
  Int.to_uint32 (GetEdId pkt s).

Section Callbacks.

Variable cfg : Config.

Definition Interf (pkt : Packet) (gwId : Z) (s : State) : option State :=
  let s := inc nLost (inc nInterf s) in
  let s := ComputeLqi pkt s in
  let sf := GetSpreadingFactor pkt in
  s ← vec_incr interfPerSf (Int.wrap32 (sf - 7)) s;
  let s := push_back interfPkts (GetUid pkt) s in
  if decide (sfa cfg = "asfa") then
    let dr := Int.to_uint8 (12 - sf) in
    SetDataRate (Interf_node_index pkt s)
      (Int.to_uint8 (if decide (0 < dr) then dr - 1 else 0)) s
  else Some s.

Definition Under (pkt : Packet) (gwId : Z) (s : State) : option State :=
  let s := inc nLost (inc nUnder s) in
  let s := ComputeLqi pkt s in
  let s := push_back underPkts (GetUid pkt) s in
  vec_incr underPerSf (GetIndexBasedOnSf pkt) s.

Definition NoMore (pkt : Packet) (gwId : Z) (s : State) : option State :=
  let s := inc nLost (inc nNoMore s) in
  let s := ComputeLqi pkt s in
  let s := push_back noMorePkts (GetUid pkt) s in
  vec_incr noMorePerSf (GetIndexBasedOnSf pkt) s.

Definition Busy (pkt : Packet) (gwId : Z) (s : State) : option State :=
  let s := inc nLost (inc nBusy s) in
  let s := ComputeLqi pkt s in
  let s := push_back busyPkts (GetUid pkt) s in
  vec_incr busyPerSf (GetIndexBasedOnSf pkt) s.

(** [RequiredTransmissionsCallback]; [packet] is a pointer that may be
    null, [firstAttempt] a time in nanoseconds. *)
Definition RequiredTransmissionsCallback
    (now : Z) (reqTx : Z) (success : bool) (firstAttempt : Z)
    (packet : option Packet) (s : State) : State :=
  match packet with
  | None => s
  | Some pkt =>
      let pktId := pktIdOf pkt in
      match pktInfoMap s !! pktId with
      | None => s
      | Some info =>
          if success && (m_cpsrDelay info =? -1)%float then
            let d := (nowMs now - nowMs firstAttempt)%float in
            let s := set_map (<[pktId := set_cpsrDelay d info]> (pktInfoMap s)) s in
            set_int nReqTx (Int.add (ints s nReqTx) reqTx) (inc nRecAck s)
          else s
      end
  end.

(** The sample [CalcPdrsPerHour] appends for a window with the given
    counters. *)
Definition window_sample (sent rec : Z) : float :=
  let pdr := if decide (0 < sent)
             then (1 * Double.of_int rec / Double.of_int sent * 100)%float
             else 0%float in
  if (pdr <=? 100)%float then pdr else 100%float.

Definition CalcPdrsPerHour (s : State) : State :=
  let sample := window_sample (ints s nSentPerHour) (ints s nRecPerHour) in
  let s := set_pdrsPerHourVec (pdrsPerHourVec s ++ [sample]) s in
  set_int nRecPerHour 0 (set_int nSentPerHour 0 s).

Definition ClearData (s : State) : State :=
  let s := set_map ∅ s in
  let s := set_ivec sfDist [] s in
  let s := set_pdrsPerHourVec [] s in
  let s := set_ivec interfPerSf [] s in
  let s := set_idvec expiredPkts [] s in
  let s := set_idvec interfPkts [] s in
  let s := set_idvec underPkts [] s in
  let s := set_idvec busyPkts [] s in
  let s := set_idvec noMorePkts [] s in
  let s := set_idvec okPkts [] s in
  let s := set_ivec underPerSf [] s in
  let s := set_ivec expPerSf [] s in
  let s := set_ivec noMorePerSf [] s in
  let s := set_ivec busyPerSf [] s in
  set_delayPerApp [] s.

(** [CalcEnergyConsumption]: the sum of the energy drawn by the devices;
    [energies] gives, for each node of the container, the total of its
    radio energy model, or [None] when the node has no energy source or no
    such model. *)
Definition CalcEnergyConsumption (energies : list (option float)) (s : State) : State :=
  fold_left
    (fun s e => match e with
                | Some x => add_dbl consumption x s
                | None => s
                end)
    energies (set_dbl consumption 0%float s).

(** ** The main report *)

(** The local variables of [PrintMainData]. *)
Record MainData := {
  pdr : float; imrPdr : float; billingPdr : float;
  avgDelay : float; avgRssi : float; avgSnr : float;
  energyCons : float; tput : float;
  ee1 : float; ee2 : float; ee3 : float; ee4 : float;
  avgPktsRssi : float; avgPktsSnr : float
}.

(** [(den > 0 ? 1.0 * num / den : 0.0) * 100] *)
Definition ratio100 (num den : Z) : float :=
  ((if decide (0 < den) then 1 * Double.of_int num / Double.of_int den else 0) * 100)%float.

(** [(n > 0 ? sum / n : 0.0)] *)
Definition mean (sum : float) (n : Z) : float :=
  if decide (0 < n) then (sum / Double.of_int n)%float else 0%float.

Definition main_data (s : State) : MainData :=
  let bits := Double.of_int (Int.mul (Int.mul (ints s nRec) (payloadSize cfg)) 8) in
  let energyCons := (dbls s consumption / Double.of_int (nDevices cfg))%float in
  let tput := (bits / simulationTimeSeconds cfg)%float in
  {| pdr := ratio100 (ints s nRec) (ints s nSent);
     imrPdr := ratio100 (ints s nImrRec) (ints s nImrSent);
     billingPdr := ratio100 (ints s nPccRec) (ints s nPccSent);
     avgDelay := mean (dbls s sumDelay) (ints s nRec);
     avgRssi := mean (dbls s sumRssi) (ints s nRec);
     avgSnr := mean (dbls s sumSnr) (ints s nRec);
     energyCons := energyCons;
     tput := tput;
     ee1 := (bits / dbls s consumption)%float;
     ee2 := (bits / energyCons)%float;
     ee3 := (tput / energyCons)%float;
     ee4 := (tput / dbls s consumption)%float;
     avgPktsRssi := mean (dbls s sumPktsRssi) (ints s nTotalPkts);
     avgPktsSnr := mean (dbls s sumPktsSnr) (ints s nTotalPkts) |}.

(** A field of the line written to the data file: an [int] or a
    [double]. *)
Inductive Cell := CInt (n : Z) | CDbl (x : float).

(** The line [PrintMainData] appends to the data file, without the run
    number.  In "nack" mode it holds the mean delay per class, read from
    [delayPerApp[0]] and [delayPerApp[1]]. *)
Definition PrintMainData (s : State) : option (list Cell) :=
  let d := main_data s in
  let counts := [CInt (ints s nSent); CInt (ints s nRec); CDbl (pdr d);
                 CInt (ints s nImrSent); CInt (ints s nImrRec); CDbl (imrPdr d);
                 CInt (ints s nPccSent); CInt (ints s nPccRec); CDbl (billingPdr d);
                 CDbl (avgDelay d)] in
  let energy := [CDbl (avgRssi d); CDbl (avgSnr d); CDbl (energyCons d);
                 CDbl (tput d); CDbl (ee1 d); CDbl (ee2 d); CDbl (ee3 d);
                 CDbl (ee4 d)] in
  let lqi := [CDbl (avgPktsRssi d); CDbl (avgPktsSnr d)] in
  if decide (txMode cfg = "ack") then
    let cpsr := if decide (0 < ints s nRec)
                then (1 * Double.of_int (ints s nRecAck)
                      / Double.of_int (ints s nRec) * 100)%float
                else 0%float in
    Some (counts ++ energy
            ++ [CInt (ints s nReqTx); CInt (ints s nRecAck); CDbl cpsr] ++ lqi)
  else if decide (txMode cfg = "nack") then
    dImr ← delayPerApp s !! 0%nat;
    dPcc ← delayPerApp s !! 1%nat;
    Some (counts
            ++ [CDbl (dImr / Double.of_int (ints s nImrRec))%float;
                CDbl (dPcc / Double.of_int (ints s nPccRec))%float]
            ++ energy ++ lqi)
  else Some [].

(** ** Events and runs *)

Inductive Event :=
  | EvSent (now : Z) (pkt : Packet) (edId : Z)
  | EvOk (now : Z) (pkt : Packet) (gwId : Z)
  | EvInterf (pkt : Packet) (gwId : Z)
  | EvUnder (pkt : Packet) (gwId : Z)
  | EvNoMore (pkt : Packet) (gwId : Z)
  | EvBusy (pkt : Packet) (gwId : Z)
  | EvRequiredTransmissions (now : Z) (reqTx : Z) (success : bool)
      (firstAttempt : Z) (packet : option Packet)
  | EvCalcPdrsPerHour.

Definition handle (ev : Event) (s : State) : option State :=
  match ev with
  | EvSent now pkt edId => Some (Sent now pkt edId s)
  | EvOk now pkt gwId => Ok now pkt gwId s
  | EvInterf pkt gwId => Interf pkt gwId s
  | EvUnder pkt gwId => Under pkt gwId s
  | EvNoMore pkt gwId => NoMore pkt gwId s
  | EvBusy pkt gwId => Busy pkt gwId s
  | EvRequiredTransmissions now reqTx success firstAttempt packet =>
      Some (RequiredTransmissionsCallback now reqTx success firstAttempt packet s)
  | EvCalcPdrsPerHour => Some (CalcPdrsPerHour s)
  end.

(** The simulator delivers the events one after the other. *)
Fixpoint run (evs : list Event) (s : State) : option State :=
  match evs with
  | [] => Some s
  | ev :: evs' => s' ← handle ev s; run evs' s'
  end.

End Callbacks.

(** ** Notions used by the statements *)

(** The four kinds of loss the gateways report, with the callback and the
    globals of each. *)
Inductive LossCause := ByInterf | ByUnder | ByNoMore | ByBusy.

Definition Loss (cfg : Config) (c : LossCause)
    : Packet -> Z -> State -> option State :=
  match c with
  | ByInterf => Interf cfg
  | ByUnder => Under
  | ByNoMore => NoMore
  | ByBusy => Busy
  end.

Definition cause_counter (c : LossCause) : IntVar :=
  match c with
  | ByInterf => nInterf | ByUnder => nUnder
  | ByNoMore => nNoMore | ByBusy => nBusy
  end.

Definition cause_buckets (c : LossCause) : IntVec :=
  match c with
  | ByInterf => interfPerSf | ByUnder => underPerSf
  | ByNoMore => noMorePerSf | ByBusy => busyPerSf
  end.

Definition cause_ids (c : LossCause) : IdVec :=
  match c with
  | ByInterf => interfPkts | ByUnder => underPkts
  | ByNoMore => noMorePkts | ByBusy => busyPkts
  end.

(** What the first part of every loss callback does: the two counters and
    the statistics over all observed packets. *)
Definition loss_prefix (c : LossCause) (pkt : Packet) (s : State) : State :=
  ComputeLqi pkt (inc nLost (inc (cause_counter c) s)).

(** The packet carries one of the spreading factors SF7 to SF12. *)
Definition valid_sf (pkt : Packet) : Prop :=
  7 <= GetSpreadingFactor pkt <= 12.

(** The vectors have the sizes they are created with: six buckets per
    spreading-factor table, two per-class delay sums. *)
Definition allocated (s : State) : Prop :=
  (forall v, length (ivecs s v) = 6%nat) /\ length (delayPerApp s) = 2%nat.

(** A record whose delay has been written, that is, whose delivery has
    been processed ([m_delay != -1]). *)
Definition delivered (info : PacketInfo) : Prop :=
  Double.neqb (m_delay info) (-1)%float = true.

(** The delay [Ok] computes for a delivery at clock reading [now] of a
    packet whose record is [info]. *)
Definition delay_at (now : Z) (info : PacketInfo) : float :=
  (nowMs now - m_txTime info)%float.

(** The value of the C++ expression
    [nRec + nExpired + (nInterf + nUnder + nNoMore + nBusy)]. *)
Definition resolved_total (s : State) : Z :=
  Int.add (Int.add (ints s nRec) (ints s nExpired))
    (Int.add (Int.add (Int.add (ints s nInterf) (ints s nUnder))
                (ints s nNoMore))
       (ints s nBusy)).

(** The packet id an outcome event (delivery or loss) is about. *)
Definition outcome_of (ev : Event) : option Z :=
  match ev with
  | EvOk _ pkt _ | EvInterf pkt _ | EvUnder pkt _
  | EvNoMore pkt _ | EvBusy pkt _ => Some (pktIdOf pkt)
  | _ => None
  end.

(** [resolves_once sent resolved evs]: reading [evs] from a point where
    the ids in [sent] have been sent and those in [resolved] have had their
    outcome, every outcome event is about a packet already sent and not yet
    resolved, and at the end every sent packet is resolved. *)
Fixpoint resolves_once (sent resolved : gset Z) (evs : list Event) : bool :=
  match evs with
  | [] => bool_decide (sent = resolved)
  | ev :: evs' =>
      match ev with
      | EvSent _ pkt _ => resolves_once ({[pktIdOf pkt]} ∪ sent) resolved evs'
      | _ =>
          match outcome_of ev with
          | Some id =>
              bool_decide (id ∈ sent) && bool_decide (id ∉ resolved)
              && resolves_once sent ({[id]} ∪ resolved) evs'
          | None => resolves_once sent resolved evs'
          end
      end
  end.

(** The same sum over the integers, without wrap-around. *)
Definition plain_total (s : State) : Z :=
  ints s nRec + ints s nExpired + ints s nInterf + ints s nUnder
  + ints s nNoMore + ints s nBusy.

(** The state agrees with a history in which the packets [sent] were sent
    and those in [resolved] had their outcome: the ledger holds the sent
    packets, unresolved ones have no delay yet, and the counters count the
    two sets (modulo 2^32, as [int] does). *)
Definition ledger_matches (sent resolved : gset Z) (s : State) : Prop :=
  dom (pktInfoMap s) = sent
  /\ resolved ⊆ sent
  /\ (forall id info, pktInfoMap s !! id = Some info -> id ∉ resolved ->
      ~ delivered info)
  /\ ints s nSent = Int.wrap32 (Z.of_nat (size sent))
  /\ Int.wrap32 (plain_total s) = Int.wrap32 (Z.of_nat (size resolved)).

(** The ids of the send events of a sequence, and the number of outcome
    events about an id. *)
Definition sent_ids (evs : list Event) : list Z :=
  omap (fun ev => match ev with
                  | EvSent _ pkt _ => Some (pktIdOf pkt)
                  | _ => None
                  end) evs.

Definition outcome_count (evs : list Event) (id : Z) : nat :=
  length (filter (fun ev => outcome_of ev = Some id) evs).

(** Every event of the sequence is about a packet with a spreading factor
    in SF7..SF12. *)
Definition valid_event (ev : Event) : Prop :=
  match ev with
  | EvOk _ pkt _ | EvInterf pkt _ | EvUnder pkt _
  | EvNoMore pkt _ | EvBusy pkt _ => valid_sf pkt
  | _ => True
  end.

(** Concrete packets and states for the examples. *)
Definition imr_packet : Packet :=
  {| GetUid := 1; GetReceivePower := (-100)%float;
     GetSpreadingFactor := 7; GetMsgType := IMR |}.

Definition pcc_packet : Packet :=
  {| GetUid := 2; GetReceivePower := (-120)%float;
     GetSpreadingFactor := 12; GetMsgType := PCC |}.

Definition three_devices : State := initial_state [0; 0; 0].

Definition asfa_config : Config :=
  {| nDevices := 3; simulationTimeSeconds := 86400%float;
     payloadSize := 51; txMode := "nack"; sfa := "asfa" |}.

(** The state after the first transmission of [imr_packet] by device 0. *)
Definition one_sent : State := Sent 0 imr_packet 0 three_devices.

(** Two packets sent, one of them twice; the first is delivered, the
    second lost to interference. *)
Definition resolved_trace : list Event :=
  [EvSent 0 imr_packet 0; EvSent 5 pcc_packet 1; EvSent 7 imr_packet 0;
   EvOk 1000000000 imr_packet 0; EvCalcPdrsPerHour; EvInterf pcc_packet 0].

(** One packet sent and delivered, and a loss of a packet never sent. *)
Definition stray_loss_trace : list Event :=
  [EvSent 0 imr_packet 0; EvOk 1000000000 imr_packet 0; EvInterf pcc_packet 0].

(** ** The distribution report *)

(** One turn of the loop of [PrintSFAndTP] for the device in slot [i]:
    [sfDist[5 - dr]++] for its data rate [dr], and [tpDist[txPower - 1]++]
    when its transmission power, cast to [int], is positive.  [txPower]
    gives that power per slot; [tpDist] is the local vector of the
    function. *)
Definition count_device (txPower : nat -> Z) (st : State * list Z) (i : nat)
    : option (State * list Z) :=
  dr ← at_index (endDevices st.1) (Z.of_nat i);
  s ← vec_incr sfDist (Int.wrap32 (5 - dr)) st.1;
  if decide (0 < txPower i) then
    n ← at_index st.2 (Int.wrap32 (txPower i - 1));
    Some (s, <[Z.to_nat (Int.wrap32 (txPower i - 1)) := Int.incr n]> st.2)
  else Some (s, st.2).

(** The loop [for (int i = 0; i < nDevices; i++)] over the slots given. *)
Fixpoint count_devices (txPower : nat -> Z) (slots : list nat)
    (st : State * list Z) : option (State * list Z) :=
  match slots with
  | [] => Some st
  | i :: slots' => st' ← count_device txPower st i; count_devices txPower slots' st'
  end.

(** [1.0 * n / nDevices * 100] *)
Definition share_of_devices (cfg : Config) (n : Z) : float :=
  (1 * Double.of_int n / Double.of_int (nDevices cfg) * 100)%float.

(** [PrintSFAndTP]: the line written to the distribution file, without the
    run number, and the state it leaves, with [sfDist] cleared. *)
Definition PrintSFAndTP (cfg : Config) (txPower : nat -> Z) (s : State)
    : option (list float * State) :=
  st ← count_devices txPower (seq 0 (Z.to_nat (nDevices cfg))) (s, replicate 14 0);
  Some (map (share_of_devices cfg) (ivecs st.1 sfDist)
          ++ map (share_of_devices cfg) st.2,
        set_ivec sfDist [] st.1).

(** The number of devices, among the slots given, that the loop of
    [PrintSFAndTP] counts in bucket [k] of [sfDist] (the bucket [5 - dr] of
    a device with data rate [dr]), and in bucket [k] of the power table
    (the bucket [txPower - 1] of a device with a positive power). *)
Definition sf_hits (devs : list Z) (slots : list nat) (k : nat) : nat :=
  length (filter (fun i => (fun dr => Z.to_nat (Int.wrap32 (5 - dr)))
                             <$> at_index devs (Z.of_nat i) = Some k) slots).

Definition tp_hits (txPower : nat -> Z) (slots : list nat) (k : nat) : nat :=
  length (filter (fun i => 0 < txPower i
                           /\ Z.to_nat (Int.wrap32 (txPower i - 1)) = k) slots).

(** ** Notions used by the further properties *)

(** The sum of a vector of counters. *)
Definition total (l : list Z) : Z := foldr Z.add 0 l.

(** The number of sampler ticks in a sequence of events. *)
Definition is_tick (ev : Event) : bool :=
  match ev with EvCalcPdrsPerHour => true | _ => false end.

Definition ticks (evs : list Event) : nat := length (List.filter is_tick evs).

(** The number of send events in a sequence of events. *)
Definition is_send (ev : Event) : bool :=
  match ev with EvSent _ _ _ => true | _ => false end.

Definition sends (evs : list Event) : nat := length (List.filter is_send evs).

(** The vectors have their sizes and the container holds [n] devices. *)
Definition sized (n : nat) (s : State) : Prop :=
  allocated s /\ length (endDevices s) = n.

(** [nLost] is the sum of the four cause counters and [nRec] the sum of
    the two class counters, as [int]s. *)
Definition counters_consistent (s : State) : Prop :=
  ints s nLost
    = Int.wrap32 (ints s nInterf + ints s nUnder + ints s nNoMore + ints s nBusy)
  /\ ints s nRec = Int.wrap32 (ints s nImrRec + ints s nPccRec).

(** The buckets of a table add up to the counter of its cause, and those
    of [expPerSf] to [nExpired]. *)
Definition buckets_consistent (s : State) : Prop :=
  (forall c, ints s (cause_counter c)
             = Int.wrap32 (total (ivecs s (cause_buckets c))))
  /\ ints s nExpired = Int.wrap32 (total (ivecs s expPerSf)).

(** The id lists are as long as their counters say. *)
Definition lists_consistent (s : State) : Prop :=
  (forall c, ints s (cause_counter c)
             = Int.wrap32 (Z.of_nat (length (idvecs s (cause_ids c)))))
  /\ ints s nRec = Int.wrap32 (Z.of_nat (length (idvecs s okPkts)))
  /\ ints s nExpired = Int.wrap32 (Z.of_nat (length (idvecs s expiredPkts))).

(** [nSent] counts the records; a record is filed under its own id, never
    has status [LOST], and while its status is [SENT] its delay is the -1
    the constructor wrote. *)
Definition ledger_consistent (s : State) : Prop :=
  ints s nSent = Int.wrap32 (Z.of_nat (size (pktInfoMap s)))
  /\ (forall id info, pktInfoMap s !! id = Some info ->
      m_pktId info = id
      /\ m_status info <> LOST
      /\ (m_status info = SENT -> m_delay info = (-1)%float)).

(** Every sample is at most 100. *)
Definition samples_bounded (l : list float) : Prop :=
  Forall (fun x => (x <=? 100)%float = true) l.

(** A packet with the uid of [imr_packet] plus 2^32. *)
Definition colliding_packet : Packet :=
  {| GetUid := 4294967297; GetReceivePower := (-90)%float;
     GetSpreadingFactor := 9; GetMsgType := PCC |}.

(** One packet sent, acknowledged after 2 attempts, then two hourly ticks
    around a delivery and two losses. *)
Definition busy_trace : list Event :=
  [EvSent 0 imr_packet 0; EvSent 5 pcc_packet 1;
   EvRequiredTransmissions 900000000 2 true 0 (Some imr_packet);
   EvOk 1000000000 imr_packet 0; EvCalcPdrsPerHour;
   EvUnder pcc_packet 0; EvBusy pcc_packet 0; EvOk 2000000000 pcc_packet 0;
   EvNoMore imr_packet 0; EvCalcPdrsPerHour].

(** ** Basic facts *)

Lemma ints_inc_other x y s : y <> x -> ints (inc x s) y = ints s y.
Proof. intros H. unfold inc. cbn. by rewrite decide_False. Qed.

Lemma ints_set_other x y v s : y <> x -> ints (set_int x v s) y = ints s y.
Proof. intros H. cbn. by rewrite decide_False. Qed.

Lemma ints_ComputeLqi_other pkt s y :
  y <> nTotalPkts -> ints (ComputeLqi pkt s) y = ints s y.
Proof. intros H. unfold ComputeLqi. by rewrite ints_inc_other. Qed.

Lemma at_index_Some {A} (l : list A) i x :
  at_index l i = Some x -> 0 <= i < Z.of_nat (length l) /\ l !! Z.to_nat i = Some x.
Proof. unfold at_index. case_decide; [done | discriminate]. Qed.

Lemma at_index_in_range {A} (l : list A) i :
  0 <= i < Z.of_nat (length l) -> is_Some (at_index l i).
Proof.
  intros H. unfold at_index. rewrite decide_True by done.
  apply lookup_lt_is_Some. lia.
Qed.

Lemma vec_incr_Some v i s s' :
  vec_incr v i s = Some s' ->
  exists n, at_index (ivecs s v) i = Some n /\
            s' = set_ivec v (<[Z.to_nat i := Int.incr n]> (ivecs s v)) s.
Proof.
  unfold vec_incr. destruct (at_index (ivecs s v) i) as [n|]; [|discriminate].
  intros [= <-]. eauto.
Qed.

Lemma vec_incr_in_range v i s :
  0 <= i < Z.of_nat (length (ivecs s v)) -> is_Some (vec_incr v i s).
Proof.
  intros H. unfold vec_incr.
  destruct (at_index_in_range (ivecs s v) i H) as [n ->]. eauto.
Qed.

Lemma wrap32_small z : - 2 ^ 31 <= z < 2 ^ 31 -> Int.wrap32 z = z.
Proof. intros H. unfold Int.wrap32. rewrite Z.mod_small; lia. Qed.

Lemma index_of_valid_sf pkt :
  valid_sf pkt -> 0 <= GetIndexBasedOnSf pkt < 6.
Proof.
  unfold valid_sf, GetIndexBasedOnSf. intros H.
  rewrite wrap32_small; lia.
Qed.

(** ** Send events *)

(** C7: a send event for an unseen packet id inserts a record with status
    [SENT] and increments [nSent], [nSentPerHour] and the sent counter of
    the packet's class by one; a send event for an id already in the ledger
    increments [nRetx] and changes nothing else. *)
Theorem Sent_new_or_retransmission (now : Z) (pkt : Packet) (edId : Z) (s : State) :
  (pktInfoMap s !! pktIdOf pkt = None ->
     pktInfoMap (Sent now pkt edId s)
       = <[pktIdOf pkt := mkPacketInfo (pktIdOf pkt) (Int.wrap32 edId) (nowMs now)]>
           (pktInfoMap s)
     /\ m_status <$> pktInfoMap (Sent now pkt edId s) !! pktIdOf pkt = Some SENT
     /\ ints (Sent now pkt edId s) nSent = Int.incr (ints s nSent)
     /\ ints (Sent now pkt edId s) nSentPerHour = Int.incr (ints s nSentPerHour)
     /\ ints (Sent now pkt edId s) nImrSent
          = (if decide (GetMsgType pkt = IMR) then Int.incr (ints s nImrSent)
             else ints s nImrSent)
     /\ ints (Sent now pkt edId s) nPccSent
          = (if decide (GetMsgType pkt = PCC) then Int.incr (ints s nPccSent)
             else ints s nPccSent)
     /\ ints (Sent now pkt edId s) nRetx = ints s nRetx)
  /\ (is_Some (pktInfoMap s !! pktIdOf pkt) ->
     pktInfoMap (Sent now pkt edId s) = pktInfoMap s
     /\ ints (Sent now pkt edId s) nRetx = Int.incr (ints s nRetx)
     /\ (forall x, x <> nRetx -> ints (Sent now pkt edId s) x = ints s x)
     /\ dbls (Sent now pkt edId s) = dbls s
     /\ ivecs (Sent now pkt edId s) = ivecs s
     /\ idvecs (Sent now pkt edId s) = idvecs s
     /\ pdrsPerHourVec (Sent now pkt edId s) = pdrsPerHourVec s
     /\ delayPerApp (Sent now pkt edId s) = delayPerApp s
     /\ endDevices (Sent now pkt edId s) = endDevices s).
Proof.
  split.
  - intros Hnew. unfold Sent. rewrite Hnew.
    repeat split.
    + by destruct (GetMsgType pkt).
    + destruct (GetMsgType pkt); cbn; by rewrite lookup_insert_eq.
    + destruct (GetMsgType pkt); reflexivity.
    + destruct (GetMsgType pkt); reflexivity.
    + destruct (GetMsgType pkt); reflexivity.
    + destruct (GetMsgType pkt); reflexivity.
    + destruct (GetMsgType pkt); reflexivity.
  - intros [info Hseen]. unfold Sent. rewrite Hseen.
    repeat split.
    intros x Hx. by apply ints_inc_other.
Qed.

Lemma Sent_new_or_retransmission_witness :
  (ints (Sent 0 imr_packet 0 three_devices) nSent
     = Int.incr (ints three_devices nSent)
   /\ m_status <$> pktInfoMap (Sent 0 imr_packet 0 three_devices) !! pktIdOf imr_packet
       = Some SENT)
  /\ (ints (Sent 5 imr_packet 0 one_sent) nRetx = Int.incr (ints one_sent nRetx)
      /\ pktInfoMap (Sent 5 imr_packet 0 one_sent) = pktInfoMap one_sent
      /\ ints (Sent 5 imr_packet 0 one_sent) nSent = ints one_sent nSent).
Proof.
  split.
  - destruct (proj1 (Sent_new_or_retransmission 0 imr_packet 0 three_devices) eq_refl)
      as (_ & Hstatus & HnSent & _).
    split; [exact HnSent | exact Hstatus].
  - destruct (proj2 (Sent_new_or_retransmission 5 imr_packet 0 one_sent)
                (mk_is_Some _ _ eq_refl))
      as (Hmap & HnRetx & Hother & _).
    split; [exact HnRetx|]. split; [exact Hmap|].
    apply Hother. discriminate.
Defined.

(** A first transmission followed by a retransmission of the same packet:
    one record, one packet sent, one retransmission. *)
Example Sent_twice :
  let s := Sent 5 imr_packet 0 (Sent 0 imr_packet 0 three_devices) in
  size (pktInfoMap s) = 1%nat
  /\ map (ints s) [nSent; nImrSent; nPccSent; nSentPerHour; nRetx] = [1; 1; 0; 1; 1].
Proof. vm_compute. done. Qed.

(** ** The hourly sampler *)

Lemma window_sample_le_100 sent rec : (window_sample sent rec <=? 100)%float = true.
Proof.
  unfold window_sample.
  set (pdr := if decide (0 < sent) then _ else _).
  destruct (pdr <=? 100)%float eqn:E; [exact E | reflexivity].
Qed.

Lemma window_sample_no_sent sent rec : sent <= 0 -> window_sample sent rec = 0%float.
Proof.
  intros H. unfold window_sample. rewrite decide_False by lia. reflexivity.
Qed.

(** C8: a tick of the sampler appends one sample to [pdrsPerHourVec], the
    ratio received/sent of the window in percent, which is zero when nothing
    was sent in the window and never above 100; it sets the two window
    counters to zero and leaves every other global as it was. *)
Theorem CalcPdrsPerHour_sample_and_frame (s : State) :
  pdrsPerHourVec (CalcPdrsPerHour s)
    = pdrsPerHourVec s ++ [window_sample (ints s nSentPerHour) (ints s nRecPerHour)]
  /\ (window_sample (ints s nSentPerHour) (ints s nRecPerHour) <=? 100)%float = true
  /\ (ints s nSentPerHour <= 0 ->
      window_sample (ints s nSentPerHour) (ints s nRecPerHour) = 0%float)
  /\ (0 < ints s nSentPerHour ->
      forall ratio,
        ratio = (1 * Double.of_int (ints s nRecPerHour)
                 / Double.of_int (ints s nSentPerHour) * 100)%float ->
        window_sample (ints s nSentPerHour) (ints s nRecPerHour)
          = if (ratio <=? 100)%float then ratio else 100%float)
  /\ ints (CalcPdrsPerHour s) nSentPerHour = 0
  /\ ints (CalcPdrsPerHour s) nRecPerHour = 0
  /\ (forall x, x <> nSentPerHour -> x <> nRecPerHour ->
      ints (CalcPdrsPerHour s) x = ints s x)
  /\ dbls (CalcPdrsPerHour s) = dbls s
  /\ ivecs (CalcPdrsPerHour s) = ivecs s
  /\ idvecs (CalcPdrsPerHour s) = idvecs s
  /\ delayPerApp (CalcPdrsPerHour s) = delayPerApp s
  /\ pktInfoMap (CalcPdrsPerHour s) = pktInfoMap s
  /\ endDevices (CalcPdrsPerHour s) = endDevices s.
Proof.
  split; [reflexivity|].
  split; [apply window_sample_le_100|].
  split; [apply window_sample_no_sent|].
  split.
  { intros Hpos ratio ->. unfold window_sample. by rewrite decide_True. }
  split; [reflexivity|].
  split; [reflexivity|].
  split; [|repeat split].
  intros x H1 H2. unfold CalcPdrsPerHour.
  rewrite ints_set_other by done. by rewrite ints_set_other.
Qed.

Lemma CalcPdrsPerHour_sample_and_frame_witness :
  window_sample (ints three_devices nSentPerHour) (ints three_devices nRecPerHour)
    = 0%float
  /\ window_sample (ints one_sent nSentPerHour) (ints one_sent nRecPerHour)
      = 0%float
  /\ ints (CalcPdrsPerHour one_sent) nSent = ints one_sent nSent.
Proof.
  destruct (CalcPdrsPerHour_sample_and_frame three_devices)
    as (_ & _ & Hzero & _).
  destruct (CalcPdrsPerHour_sample_and_frame one_sent)
    as (_ & _ & _ & Hratio & _ & _ & Hframe & _).
  split; [apply Hzero; simpl; lia|].
  split; [|apply Hframe; discriminate].
  rewrite (Hratio ltac:(vm_compute; reflexivity) _ eq_refl).
  vm_compute. reflexivity.
Defined.

(** Two windows with 99 of 100 and then 50 of 50 packets received. *)
Example two_windows :
  pdrsPerHourVec
    (CalcPdrsPerHour
       (set_int nRecPerHour 50 (set_int nSentPerHour 50
          (CalcPdrsPerHour
             (set_int nRecPerHour 99 (set_int nSentPerHour 100 three_devices))))))
  = [99%float; 100%float].
Proof. vm_compute. reflexivity. Qed.

(** More packets received than sent in the window: the sample is 100. *)
Example window_clamped : window_sample 2 3 = 100%float.
Proof. vm_compute. reflexivity. Qed.

(** ** Delivery events *)

Lemma not_delivered_neqb info :
  ~ delivered info -> Double.neqb (m_delay info) (-1)%float = false.
Proof. unfold delivered. by destruct (Double.neqb _ _). Qed.

Lemma new_record_not_delivered pktId edId txTime :
  ~ delivered (mkPacketInfo pktId edId txTime).
Proof. unfold delivered. cbn. discriminate. Qed.

Lemma Ok_untracked now pkt gwId s :
  pktInfoMap s !! pktIdOf pkt = None -> Ok now pkt gwId s = Some s.
Proof. intros H. unfold Ok. by rewrite H. Qed.

Lemma Ok_duplicate now pkt gwId s info :
  pktInfoMap s !! pktIdOf pkt = Some info -> delivered info ->
  Ok now pkt gwId s = Some (ComputeLqi pkt s).
Proof. intros H Hd. unfold Ok. rewrite H. unfold delivered in Hd. by rewrite Hd. Qed.

(** Unfolds [Ok] on a first delivery and splits on the write to the last
    vector of the branch. *)
Ltac first_delivery Hlook Hnew :=
  unfold Ok; rewrite Hlook, (not_delivered_neqb _ Hnew).

Lemma delayPerApp_add_in_range i d s :
  (i < length (delayPerApp s))%nat -> is_Some (delayPerApp_add i d s).
Proof.
  intros H. unfold delayPerApp_add.
  destruct (lookup_lt_is_Some_2 (delayPerApp s) i H) as [x ->]. eauto.
Qed.

Lemma delayPerApp_add_Some i d s s' :
  delayPerApp_add i d s = Some s' ->
  exists x, delayPerApp s !! i = Some x /\
            s' = set_delayPerApp (<[i := (x + d)%float]> (delayPerApp s)) s.
Proof.
  unfold delayPerApp_add. destruct (delayPerApp s !! i) as [x|]; [|discriminate].
  intros [= <-]. eauto.
Qed.

(** C5, as the code has it: a delivery event for a packet id that has no
    record changes nothing, neither the ledger nor any counter or sum; the
    statistics over all observed packets ([sumPktsRssi], [sumPktsSnr],
    [nTotalPkts]) are left as they were. *)
Theorem Ok_untracked_changes_nothing (now : Z) (pkt : Packet) (gwId : Z) (s : State) :
  pktInfoMap s !! pktIdOf pkt = None ->
  Ok now pkt gwId s = Some s.
Proof. apply Ok_untracked. Qed.

Lemma Ok_untracked_changes_nothing_witness :
  Ok 1001000000 pcc_packet 0 three_devices = Some three_devices.
Proof. apply (Ok_untracked_changes_nothing 1001000000 pcc_packet 0 three_devices). reflexivity. Defined.

(** C5 as stated fails: on the initial state a delivery of a packet never
    sent leaves [nTotalPkts] at 0. *)
Lemma Ok_untracked_counted_counterexample :
  ~ (forall now pkt gwId s s',
       pktInfoMap s !! pktIdOf pkt = None ->
       Ok now pkt gwId s = Some s' ->
       ints s' nTotalPkts = Int.incr (ints s nTotalPkts)).
Proof.
  intros H.
  specialize (H 0 imr_packet 0 three_devices three_devices eq_refl eq_refl).
  vm_compute in H. discriminate H.
Qed.

(** C6: on the first delivery of a tracked packet the deadline of the class
    is inclusive, for every delay the callback computes: an IMR packet is
    on time exactly when its delay is at most 60000 ms, a PCC packet
    exactly when its delay is at most 1000 ms, and a packet of no class
    never.  A packet on time gets status [OK] and counts as received
    ([nRec], the counter of its class, [nRecPerHour]), not as expired;
    any other gets status [EXPIRED] and counts in [nExpired], not as
    received.  So a PCC packet whose delay is 1001 ms is expired, and an
    IMR packet whose delay is exactly 60000 ms is on time. *)
Theorem Ok_deadline_boundary (now : Z) (pkt : Packet) (gwId : Z) (s : State)
    (info : PacketInfo) (on_time : bool) :
  pktInfoMap s !! pktIdOf pkt = Some info ->
  ~ delivered info ->
  allocated s ->
  valid_sf pkt ->
  on_time = match GetMsgType pkt with
            | IMR => (delay_at now info <=? 60000)%float
            | PCC => (delay_at now info <=? 1000)%float
            | OtherMsg => false
            end ->
  (exists s', Ok now pkt gwId s = Some s'
     /\ m_status <$> pktInfoMap s' !! pktIdOf pkt
        = Some (if on_time then OK else EXPIRED)
     /\ m_delay <$> pktInfoMap s' !! pktIdOf pkt = Some (delay_at now info)
     /\ ints s' nRec = (if on_time then Int.incr (ints s nRec) else ints s nRec)
     /\ ints s' nRecPerHour
        = (if on_time then Int.incr (ints s nRecPerHour) else ints s nRecPerHour)
     /\ ints s' nImrRec
        = (if on_time && bool_decide (GetMsgType pkt = IMR)
           then Int.incr (ints s nImrRec) else ints s nImrRec)
     /\ ints s' nPccRec
        = (if on_time && bool_decide (GetMsgType pkt = PCC)
           then Int.incr (ints s nPccRec) else ints s nPccRec)
     /\ ints s' nExpired
        = (if on_time then ints s nExpired else Int.incr (ints s nExpired)))
  /\ (GetMsgType pkt = PCC -> delay_at now info = 1001%float -> on_time = false)
  /\ (GetMsgType pkt = IMR -> delay_at now info = 60000%float -> on_time = true).
Proof.
  intros Hlook Hnew [Hvec Hdpa] Hsf ->. split.
  - first_delivery Hlook Hnew. unfold classify, imrDelay, pccDelay, delay_at.
    assert (forall st, length (ivecs st expPerSf) = 6%nat ->
              is_Some (vec_incr expPerSf (GetIndexBasedOnSf pkt) st)) as Hlate.
    { intros st Hlen. apply vec_incr_in_range. rewrite Hlen.
      pose proof (index_of_valid_sf pkt Hsf). lia. }
    destruct (GetMsgType pkt);
      [destruct (_ <=? 60000)%float | destruct (_ <=? 1000)%float | ].
    1, 3:
      match goal with |- context [delayPerApp_add ?i ?d ?st] =>
        destruct (delayPerApp_add_in_range i d st) as [s' Hs'];
        [simpl; rewrite Hdpa; lia|];
        exists s'; split; [exact Hs'|];
        apply delayPerApp_add_Some in Hs' as (x & _ & ->)
      end;
      simpl; rewrite lookup_insert_eq; done.
    all:
      match goal with |- context [vec_incr ?v ?i ?st] =>
        destruct (Hlate st) as [s' Hs']; [simpl; apply Hvec|];
        exists s'; split; [exact Hs'|];
        apply vec_incr_Some in Hs' as (n & _ & ->)
      end;
      simpl; rewrite lookup_insert_eq; done.
  - split; intros -> ->; reflexivity.
Qed.

Lemma allocated_initial devs : allocated (initial_state devs).
Proof. split; [intros v|]; reflexivity. Qed.

Lemma allocated_Sent now pkt edId s : allocated s -> allocated (Sent now pkt edId s).
Proof.
  unfold allocated, Sent.
  destruct (pktInfoMap s !! pktIdOf pkt); [done|].
  by destruct (GetMsgType pkt).
Qed.

Lemma Ok_deadline_boundary_witness :
  (exists s', Ok 1001000000 pcc_packet 0 (Sent 0 pcc_packet 1 three_devices) = Some s'
     /\ m_status <$> pktInfoMap s' !! pktIdOf pcc_packet = Some EXPIRED
     /\ ints s' nExpired = Int.incr (ints (Sent 0 pcc_packet 1 three_devices) nExpired)
     /\ ints s' nRec = ints (Sent 0 pcc_packet 1 three_devices) nRec
     /\ ints s' nPccRec = ints (Sent 0 pcc_packet 1 three_devices) nPccRec
     /\ ints s' nRecPerHour = ints (Sent 0 pcc_packet 1 three_devices) nRecPerHour)
  /\ (exists s', Ok 60000000000 imr_packet 0 (Sent 0 imr_packet 0 three_devices) = Some s'
     /\ m_status <$> pktInfoMap s' !! pktIdOf imr_packet = Some OK
     /\ ints s' nRec = Int.incr (ints (Sent 0 imr_packet 0 three_devices) nRec)
     /\ ints s' nImrRec = Int.incr (ints (Sent 0 imr_packet 0 three_devices) nImrRec)
     /\ ints s' nRecPerHour
          = Int.incr (ints (Sent 0 imr_packet 0 three_devices) nRecPerHour)
     /\ ints s' nExpired = ints (Sent 0 imr_packet 0 three_devices) nExpired).
Proof.
  split.
  - destruct (proj1 (Ok_deadline_boundary 1001000000 pcc_packet 0
                       (Sent 0 pcc_packet 1 three_devices)
                       (mkPacketInfo 2 1 0%float) false eq_refl
                       (new_record_not_delivered 2 1 0%float)
                       (allocated_Sent 0 pcc_packet 1 _ (allocated_initial _))
                       ltac:(unfold valid_sf; simpl; lia) eq_refl))
      as (s' & Hs' & Hst & _ & Hrec & Hhour & _ & Hpcc & Hexp).
    exists s'. repeat split; assumption.
  - destruct (proj1 (Ok_deadline_boundary 60000000000 imr_packet 0
                       (Sent 0 imr_packet 0 three_devices)
                       (mkPacketInfo 1 0 0%float) true eq_refl
                       (new_record_not_delivered 1 0 0%float)
                       (allocated_Sent 0 imr_packet 0 _ (allocated_initial _))
                       ltac:(unfold valid_sf; simpl; lia) eq_refl))
      as (s' & Hs' & Hst & _ & Hrec & Hhour & Himr & _ & Hexp).
    exists s'. repeat split; assumption.
Defined.

(** At the boundaries themselves: 1000 ms is on time for PCC, and the
    next double after 60000 is late for IMR. *)
Example classify_boundaries :
  classify PCC 1000 = OnTimePcc /\ classify PCC 1001 = Late
  /\ classify IMR 60000 = OnTimeImr /\ classify IMR 0x1.d4c0000000001p+15 = Late.
Proof. vm_compute. done. Qed.

(** The delay is the difference of the two clock readings after each was
    rounded to milliseconds as a [double]: for a packet sent at
    222384631399 ns and delivered exactly 60 s later it is a little above
    60000, and the packet is expired. *)
Example rounded_delay_above_deadline :
  (60000 <? delay_at 282384631399 (mkPacketInfo 1 0 (nowMs 222384631399)))%float
    = true
  /\ (s ← Ok 282384631399 imr_packet 0 (Sent 222384631399 imr_packet 0 three_devices);
      Some (m_status <$> pktInfoMap s !! 1, ints s nRec, ints s nExpired))
     = Some (Some EXPIRED, 0, 1).
Proof. vm_compute. done. Qed.

(** ** Loss events *)

Lemma Loss_Some cfg c pkt gwId s s' :
  Loss cfg c pkt gwId s = Some s' ->
  exists n,
    at_index (ivecs s (cause_buckets c)) (GetIndexBasedOnSf pkt) = Some n
    /\ pktInfoMap s' = pktInfoMap s
    /\ ints s' = ints (loss_prefix c pkt s)
    /\ dbls s' = dbls (loss_prefix c pkt s)
    /\ ivecs s' (cause_buckets c)
         = <[Z.to_nat (GetIndexBasedOnSf pkt) := Int.incr n]> (ivecs s (cause_buckets c))
    /\ (forall v, v <> cause_buckets c -> ivecs s' v = ivecs s v)
    /\ delayPerApp s' = delayPerApp s.
Proof.
  destruct c; cbn [Loss cause_buckets]; unfold Interf, Under, NoMore, Busy.
  - match goal with |- context [vec_incr ?v ?i ?st] =>
      destruct (vec_incr v i st) as [s1|] eqn:E1; [|discriminate] end.
    apply vec_incr_Some in E1 as (n & Hn & ->). cbn [mbind option_bind].
    case_decide.
    + unfold SetDataRate.
      match goal with |- context [at_index ?l ?i] =>
        destruct (at_index l i); [|discriminate] end.
      intros [= <-]. exists n. repeat split; try done.
      intros v Hv. cbn. by rewrite decide_False.
    + intros [= <-]. exists n. repeat split; try done.
      intros v Hv. cbn. by rewrite decide_False.
  - intros H. apply vec_incr_Some in H as (n & Hn & ->).
    exists n. repeat split; try done.
    intros v Hv. cbn. by rewrite decide_False.
  - intros H. apply vec_incr_Some in H as (n & Hn & ->).
    exists n. repeat split; try done.
    intros v Hv. cbn. by rewrite decide_False.
  - intros H. apply vec_incr_Some in H as (n & Hn & ->).
    exists n. repeat split; try done.
    intros v Hv. cbn. by rewrite decide_False.
Qed.

Lemma loss_prefix_cause c pkt s :
  ints (loss_prefix c pkt s) (cause_counter c) = Int.incr (ints s (cause_counter c)).
Proof. by destruct c. Qed.

Lemma loss_prefix_nLost c pkt s :
  ints (loss_prefix c pkt s) nLost = Int.incr (ints s nLost).
Proof. by destruct c. Qed.

Lemma loss_prefix_other c pkt s x :
  x <> cause_counter c -> x <> nLost -> x <> nTotalPkts ->
  ints (loss_prefix c pkt s) x = ints s x.
Proof.
  intros H1 H2 H3. unfold loss_prefix.
  rewrite ints_ComputeLqi_other by done.
  rewrite ints_inc_other by done. by rewrite ints_inc_other.
Qed.

Lemma Loss_is_Some cfg c pkt gwId s :
  valid_sf pkt -> allocated s ->
  (c = ByInterf -> sfa cfg = "asfa" ->
   Interf_node_index pkt s < Z.of_nat (length (endDevices s))) ->
  is_Some (Loss cfg c pkt gwId s).
Proof.
  intros Hsf [Hvec _] Hdev.
  pose proof (index_of_valid_sf pkt Hsf) as Hidx.
  destruct c; cbn [Loss]; unfold Interf, Under, NoMore, Busy.
  2-4: apply vec_incr_in_range; cbn; rewrite Hvec; lia.
  match goal with |- context [vec_incr ?v ?i ?st] =>
    destruct (vec_incr_in_range v i st) as [s1 E1] end.
  { cbn. rewrite Hvec. unfold GetIndexBasedOnSf in Hidx. lia. }
  rewrite E1. cbn [mbind option_bind].
  case_decide as Hsfa; [|eauto].
  apply vec_incr_Some in E1 as (n & _ & ->).
  unfold SetDataRate.
  match goal with |- context [at_index ?l ?i] =>
    destruct (at_index_in_range l i) as [d ->] end; [|eauto].
  specialize (Hdev eq_refl Hsfa).
  unfold Interf_node_index, Int.to_uint32 in *. cbn.
  split; [apply Z.mod_pos_bound; lia | exact Hdev].
Qed.

(** C4, as the code has it: a loss event of any of the four causes leaves
    the ledger as it is, whether the packet id has a record with status
    [SENT], a delivered record or no record; it increments the counter of
    the cause, [nLost] and the bucket of the packet's spreading factor in
    the cause's table by one.  The callback has a result whenever the
    spreading factor is one of SF7..SF12 and the tables have their six
    buckets (and, under "asfa", the sender's node index is in the
    container). *)
Theorem Loss_counts_and_keeps_ledger (cfg : Config) (c : LossCause) (pkt : Packet)
    (gwId : Z) (s : State) :
  (forall s', Loss cfg c pkt gwId s = Some s' ->
     pktInfoMap s' = pktInfoMap s
     /\ ints s' (cause_counter c) = Int.incr (ints s (cause_counter c))
     /\ ints s' nLost = Int.incr (ints s nLost)
     /\ (forall x, x <> cause_counter c -> x <> nLost -> x <> nTotalPkts ->
         ints s' x = ints s x)
     /\ (exists n,
           ivecs s (cause_buckets c) !! Z.to_nat (GetIndexBasedOnSf pkt) = Some n
           /\ ivecs s' (cause_buckets c)
                = <[Z.to_nat (GetIndexBasedOnSf pkt) := Int.incr n]>
                    (ivecs s (cause_buckets c)))
     /\ (forall v, v <> cause_buckets c -> ivecs s' v = ivecs s v))
  /\ (valid_sf pkt -> allocated s ->
      (c = ByInterf -> sfa cfg = "asfa" ->
       Interf_node_index pkt s < Z.of_nat (length (endDevices s))) ->
      is_Some (Loss cfg c pkt gwId s)).
Proof.
  split; [|apply Loss_is_Some].
  intros s' H.
  apply Loss_Some in H as (n & Hn & Hmap & Hints & _ & Hvec & Hothers & _).
  apply at_index_Some in Hn as [_ Hn].
  rewrite Hints.
  split; [exact Hmap|].
  split; [apply loss_prefix_cause|].
  split; [apply loss_prefix_nLost|].
  split; [intros x; apply loss_prefix_other|].
  split; [exists n; split; assumption | exact Hothers].
Qed.

(** C4 as stated fails: after an interference loss of a packet that was
    sent, its record still has status [SENT]. *)
Lemma Loss_marks_record_counterexample :
  ~ (forall cfg c pkt gwId s s' info,
       pktInfoMap s !! pktIdOf pkt = Some info ->
       m_status info = SENT ->
       Loss cfg c pkt gwId s = Some s' ->
       exists info', pktInfoMap s' !! pktIdOf pkt = Some info'
                     /\ m_status info' <> SENT).
Proof.
  intros H.
  pose (s := Sent 0 imr_packet 0 three_devices).
  destruct (Loss default_config ByInterf imr_packet 0 s) as [s'|] eqn:E;
    [|vm_compute in E; discriminate E].
  destruct (H default_config ByInterf imr_packet 0 s s'
              (mkPacketInfo 1 0 0%float) eq_refl eq_refl E)
    as (info' & Hl & Hst).
  apply Loss_Some in E as (_ & _ & Hmap & _).
  rewrite Hmap in Hl. vm_compute in Hl. injection Hl as <-.
  by apply Hst.
Qed.

Lemma Loss_counts_and_keeps_ledger_witness :
  exists s',
    Loss default_config ByInterf imr_packet 0 one_sent = Some s'
    /\ pktInfoMap s' = pktInfoMap one_sent
    /\ ints s' nInterf = Int.incr (ints one_sent nInterf)
    /\ ints s' nLost = Int.incr (ints one_sent nLost).
Proof.
  destruct (Loss_counts_and_keeps_ledger default_config ByInterf imr_packet 0 one_sent)
    as [Heffect Hresult].
  destruct Hresult as [s' Hs'].
  - unfold valid_sf. simpl. lia.
  - apply allocated_Sent, allocated_initial.
  - intros _ Hsfa. discriminate Hsfa.
  - exists s'. split; [exact Hs'|].
    destruct (Heffect s' Hs') as (Hmap & Hcause & HnLost & _).
    split; [exact Hmap|]. split; [exact Hcause | exact HnLost].
Defined.

(** A sent packet lost twice to interference at SF7: the record stays
    [SENT], and both events are counted. *)
Example lost_twice :
  (s ← run default_config
         [EvSent 0 imr_packet 0; EvInterf imr_packet 0; EvInterf imr_packet 0]
         three_devices;
   Some (m_status <$> pktInfoMap s !! 1,
         map (ints s) [nSent; nInterf; nLost; nTotalPkts],
         ivecs s interfPerSf))
  = Some (Some SENT, [1; 2; 2; 2], [2; 0; 0; 0; 0; 0]).
Proof. vm_compute. reflexivity. Qed.

(** ** At most one classification per packet *)

Lemma sf_zero : Prim2SF 0%float = S754_zero false.
Proof. vm_compute. reflexivity. Qed.

Lemma sf_minus_one : Prim2SF (-1)%float = S754_finite true 4503599627370496 (-52).
Proof. vm_compute. reflexivity. Qed.

(** A delay that is not negative is not the value -1 that marks a record
    without delivery. *)
Lemma nonneg_not_sentinel (d : float) :
  (0 <=? d)%float = true -> Double.neqb d (-1)%float = true.
Proof.
  unfold Double.neqb.
  rewrite FloatAxioms.leb_spec, FloatAxioms.eqb_spec, sf_zero, sf_minus_one.
  destruct (Prim2SF d) as [sg|sg| |sg m e];
    unfold SFleb, SFeqb, SFcompare; try destruct sg;
    try discriminate; reflexivity.
Qed.

Lemma handle_keeps_delivered cfg ev s s' id info :
  handle cfg ev s = Some s' ->
  pktInfoMap s !! id = Some info -> delivered info ->
  exists info', pktInfoMap s' !! id = Some info'
                /\ m_status info' = m_status info
                /\ m_delay info' = m_delay info.
Proof.
  intros Hev Hlook Hdel.
  destruct ev as [now pkt edId|now pkt gwId|pkt gwId|pkt gwId|pkt gwId|pkt gwId
                 |now reqTx success firstAttempt [pkt|]|]; cbn [handle] in Hev.
  - injection Hev as <-. unfold Sent.
    destruct (pktInfoMap s !! pktIdOf pkt) eqn:E; [by exists info|].
    exists info. split; [|done].
    assert (pktIdOf pkt <> id) by congruence.
    destruct (GetMsgType pkt); cbn; by rewrite lookup_insert_ne.
  - unfold Ok in Hev.
    destruct (pktInfoMap s !! pktIdOf pkt) as [rec|] eqn:E;
      [|injection Hev as <-; by exists info].
    destruct (Double.neqb (m_delay rec) (-1)) eqn:Ed;
      [injection Hev as <-; by exists info|].
    assert (pktIdOf pkt <> id) as Hne.
    { intros Heq. rewrite Heq, Hlook in E. injection E as ->.
      unfold delivered in Hdel. congruence. }
    exists info. split; [|done].
    destruct (classify _ _).
    + apply delayPerApp_add_Some in Hev as (x & _ & ->).
      cbn. by rewrite lookup_insert_ne.
    + apply delayPerApp_add_Some in Hev as (x & _ & ->).
      cbn. by rewrite lookup_insert_ne.
    + apply vec_incr_Some in Hev as (n & _ & ->).
      cbn. by rewrite lookup_insert_ne.
  - apply (Loss_Some cfg ByInterf) in Hev as (_ & _ & -> & _). by exists info.
  - apply (Loss_Some cfg ByUnder) in Hev as (_ & _ & -> & _). by exists info.
  - apply (Loss_Some cfg ByNoMore) in Hev as (_ & _ & -> & _). by exists info.
  - apply (Loss_Some cfg ByBusy) in Hev as (_ & _ & -> & _). by exists info.
  - injection Hev as <-. unfold RequiredTransmissionsCallback.
    destruct (pktInfoMap s !! pktIdOf pkt) as [rec|] eqn:E; [|by exists info].
    destruct (success && _); [|by exists info].
    destruct (decide (pktIdOf pkt = id)) as [<-|Hne].
    + rewrite Hlook in E. injection E as <-.
      exists (set_cpsrDelay (nowMs now - nowMs firstAttempt) info).
      cbn. by rewrite lookup_insert_eq.
    + exists info. cbn. by rewrite lookup_insert_ne.
  - injection Hev as <-. by exists info.
  - injection Hev as <-. by exists info.
Qed.

Lemma ComputeLqi_frame pkt s :
  pktInfoMap (ComputeLqi pkt s) = pktInfoMap s
  /\ (forall x, x <> nTotalPkts -> ints (ComputeLqi pkt s) x = ints s x)
  /\ (forall d, d <> sumPktsRssi -> d <> sumPktsSnr ->
      dbls (ComputeLqi pkt s) d = dbls s d)
  /\ ivecs (ComputeLqi pkt s) = ivecs s
  /\ idvecs (ComputeLqi pkt s) = idvecs s
  /\ delayPerApp (ComputeLqi pkt s) = delayPerApp s
  /\ pdrsPerHourVec (ComputeLqi pkt s) = pdrsPerHourVec s.
Proof.
  repeat split.
  - intros x Hx. by apply ints_ComputeLqi_other.
  - intros d H1 H2. cbn. rewrite decide_False by done. by rewrite decide_False.
Qed.

Lemma Ok_then_delivered now pkt gwId s s1 info :
  Ok now pkt gwId s = Some s1 ->
  pktInfoMap s !! pktIdOf pkt = Some info ->
  (~ delivered info -> (0 <=? delay_at now info)%float = true) ->
  exists info1, pktInfoMap s1 !! pktIdOf pkt = Some info1 /\ delivered info1.
Proof.
  intros Hok Hlook Hpos. unfold Ok in Hok. rewrite Hlook in Hok.
  destruct (Double.neqb (m_delay info) (-1)) eqn:Ed.
  { injection Hok as <-. by exists info. }
  assert (~ delivered info) as Hnew by (unfold delivered; congruence).
  apply Hpos, nonneg_not_sentinel in Hnew. unfold delay_at in Hnew.
  destruct (classify _ _).
  - apply delayPerApp_add_Some in Hok as (x & _ & ->).
    eexists. cbn. rewrite lookup_insert_eq. split; [reflexivity|exact Hnew].
  - apply delayPerApp_add_Some in Hok as (x & _ & ->).
    eexists. cbn. rewrite lookup_insert_eq. split; [reflexivity|exact Hnew].
  - apply vec_incr_Some in Hok as (n & _ & ->).
    eexists. cbn. rewrite lookup_insert_eq. split; [reflexivity|exact Hnew].
Qed.

Lemma handle_status_change cfg ev s s' id info info' :
  handle cfg ev s = Some s' ->
  pktInfoMap s !! id = Some info ->
  pktInfoMap s' !! id = Some info' ->
  m_status info' <> m_status info ->
  exists now pkt gwId,
    ev = EvOk now pkt gwId /\ pktIdOf pkt = id /\ ~ delivered info
    /\ m_delay info' = delay_at now info.
Proof.
  intros Hev Hlook Hlook' Hst.
  assert (pktInfoMap s' !! id = Some info -> False) as Hsame.
  { intros H. rewrite H in Hlook'. injection Hlook' as <-. by apply Hst. }
  destruct ev as [now pkt edId|now pkt gwId|pkt gwId|pkt gwId|pkt gwId|pkt gwId
                 |now reqTx success firstAttempt [pkt|]|]; cbn [handle] in Hev.
  - exfalso. apply Hsame. injection Hev as <-. unfold Sent.
    destruct (pktInfoMap s !! pktIdOf pkt) eqn:E; [done|].
    assert (pktIdOf pkt <> id) by congruence.
    destruct (GetMsgType pkt); cbn; by rewrite lookup_insert_ne.
  - unfold Ok in Hev.
    destruct (pktInfoMap s !! pktIdOf pkt) as [rec|] eqn:E;
      [|injection Hev as <-; by destruct Hsame].
    destruct (Double.neqb (m_delay rec) (-1)) eqn:Ed;
      [injection Hev as <-; by destruct Hsame|].
    destruct (decide (pktIdOf pkt = id)) as [Heq|Hne].
    + exists now, pkt, gwId. rewrite Heq, Hlook in E. injection E as ->.
      split; [done|]. split; [done|].
      split; [unfold delivered; congruence|].
      rewrite Heq in Hev.
      destruct (classify _ _).
      * apply delayPerApp_add_Some in Hev as (x & _ & ->).
        cbn in Hlook'. rewrite lookup_insert_eq in Hlook'. by injection Hlook' as <-.
      * apply delayPerApp_add_Some in Hev as (x & _ & ->).
        cbn in Hlook'. rewrite lookup_insert_eq in Hlook'. by injection Hlook' as <-.
      * apply vec_incr_Some in Hev as (n & _ & ->).
        cbn in Hlook'. rewrite lookup_insert_eq in Hlook'. by injection Hlook' as <-.
    + exfalso. apply Hsame.
      destruct (classify _ _).
      * apply delayPerApp_add_Some in Hev as (x & _ & ->).
        cbn. by rewrite lookup_insert_ne.
      * apply delayPerApp_add_Some in Hev as (x & _ & ->).
        cbn. by rewrite lookup_insert_ne.
      * apply vec_incr_Some in Hev as (n & _ & ->).
        cbn. by rewrite lookup_insert_ne.
  - apply (Loss_Some cfg ByInterf) in Hev as (_ & _ & Hm & _).
    destruct Hsame. by rewrite Hm.
  - apply (Loss_Some cfg ByUnder) in Hev as (_ & _ & Hm & _).
    destruct Hsame. by rewrite Hm.
  - apply (Loss_Some cfg ByNoMore) in Hev as (_ & _ & Hm & _).
    destruct Hsame. by rewrite Hm.
  - apply (Loss_Some cfg ByBusy) in Hev as (_ & _ & Hm & _).
    destruct Hsame. by rewrite Hm.
  - exfalso. clear Hsame. injection Hev as <-.
    unfold RequiredTransmissionsCallback in Hlook'.
    destruct (pktInfoMap s !! pktIdOf pkt) as [rec|] eqn:E; [|congruence].
    destruct (success && _); [|congruence].
    destruct (decide (pktIdOf pkt = id)) as [Heq|Hne].
    + rewrite Heq, Hlook in E. injection E as <-.
      cbn in Hlook'. rewrite Heq, lookup_insert_eq in Hlook'.
      injection Hlook' as <-. by apply Hst.
    + cbn in Hlook'. rewrite lookup_insert_ne in Hlook' by done. congruence.
  - injection Hev as <-. by destruct Hsame.
  - injection Hev as <-. by destruct Hsame.
Qed.

(** C1, as the code has it.  The status of a record changes only when the
    first delivery of its packet is handled, which also writes the delay;
    once the delay is written (and it is not the marker -1, as for every
    delay that is not negative) no event changes status or delay again, so
    a record leaves [SENT] at most once.  Handling the same delivery event
    again changes no classification and no delivery, expiry, class, loss or
    spreading-factor counter: only the statistics over all observed packets
    grow.  Loss events never change a record or a delivery or expiry
    counter; they are counted each time they are handled. *)
Theorem classified_at_most_once (cfg : Config) (s : State) :
  (forall ev s' id info info',
     handle cfg ev s = Some s' ->
     pktInfoMap s !! id = Some info ->
     pktInfoMap s' !! id = Some info' ->
     m_status info' <> m_status info ->
     exists now pkt gwId,
       ev = EvOk now pkt gwId /\ pktIdOf pkt = id /\ ~ delivered info
       /\ m_delay info' = delay_at now info)
  /\ (forall ev s' id info,
     handle cfg ev s = Some s' ->
     pktInfoMap s !! id = Some info -> delivered info ->
     exists info', pktInfoMap s' !! id = Some info'
                   /\ m_status info' = m_status info
                   /\ m_delay info' = m_delay info)
  /\ (forall now pkt gwId s1,
     Ok now pkt gwId s = Some s1 ->
     (forall info, pktInfoMap s !! pktIdOf pkt = Some info -> ~ delivered info ->
                   (0 <=? delay_at now info)%float = true) ->
     exists s2, Ok now pkt gwId s1 = Some s2
       /\ pktInfoMap s2 = pktInfoMap s1
       /\ (forall x, x <> nTotalPkts -> ints s2 x = ints s1 x)
       /\ (forall d, d <> sumPktsRssi -> d <> sumPktsSnr -> dbls s2 d = dbls s1 d)
       /\ ivecs s2 = ivecs s1
       /\ idvecs s2 = idvecs s1
       /\ delayPerApp s2 = delayPerApp s1
       /\ pdrsPerHourVec s2 = pdrsPerHourVec s1)
  /\ (forall c pkt gwId s1,
     Loss cfg c pkt gwId s = Some s1 ->
     pktInfoMap s1 = pktInfoMap s
     /\ ints s1 nRec = ints s nRec
     /\ ints s1 nExpired = ints s nExpired
     /\ ivecs s1 expPerSf = ivecs s expPerSf
     /\ ints s1 (cause_counter c) = Int.incr (ints s (cause_counter c))).
Proof.
  split; [intros *; apply handle_status_change|].
  split; [intros *; apply handle_keeps_delivered|].
  split.
  - intros now pkt gwId s1 Hok Hpos.
    destruct (pktInfoMap s !! pktIdOf pkt) as [info|] eqn:Hlook.
    + destruct (Ok_then_delivered now pkt gwId s s1 info Hok Hlook (Hpos info eq_refl))
        as (info1 & Hlook1 & Hdel1).
      exists (ComputeLqi pkt s1).
      split; [by apply (Ok_duplicate _ _ _ _ info1)|].
      apply ComputeLqi_frame.
    + rewrite (Ok_untracked _ _ _ _ Hlook) in Hok. injection Hok as <-.
      exists s. split; [by apply Ok_untracked|]. by repeat split.
  - intros c pkt gwId s1 H.
    apply Loss_Some in H as (n & _ & Hmap & Hints & _ & _ & Hvec & _).
    rewrite Hints.
    split; [exact Hmap|].
    split; [by destruct c|].
    split; [by destruct c|].
    split; [apply Hvec; by destruct c | apply loss_prefix_cause].
Qed.

(** C1 as stated fails for loss events: handling the same interference
    loss twice counts it twice. *)
Lemma loss_replay_counterexample :
  ~ (forall cfg c pkt gwId s s1 s2,
       Loss cfg c pkt gwId s = Some s1 ->
       Loss cfg c pkt gwId s1 = Some s2 ->
       ints s2 (cause_counter c) = ints s1 (cause_counter c)).
Proof.
  intros H.
  pose (s := Sent 0 imr_packet 0 three_devices).
  destruct (Loss default_config ByInterf imr_packet 0 s) as [s1|] eqn:E1;
    [|vm_compute in E1; discriminate E1].
  assert (ints s1 nInterf = 1) as H1.
  { apply Loss_Some in E1 as (_ & _ & _ & -> & _). reflexivity. }
  assert (allocated s1) as Halloc.
  { apply Loss_Some in E1 as (n & _ & _ & _ & _ & Hv & Ho & Hd).
    split; [intros v|by rewrite Hd].
    destruct (decide (v = cause_buckets ByInterf)) as [->|Hne].
    - rewrite Hv. by rewrite length_insert.
    - by rewrite Ho. }
  destruct (Loss_is_Some default_config ByInterf imr_packet 0 s1) as [s2 E2];
    [unfold valid_sf; simpl; lia | exact Halloc | discriminate |].
  specialize (H _ _ _ _ _ _ _ E1 E2).
  apply Loss_Some in E2 as (_ & _ & _ & Hints & _).
  rewrite Hints, loss_prefix_cause in H. cbn [cause_counter] in H.
  rewrite H1 in H. vm_compute in H. discriminate H.
Qed.

Lemma classified_at_most_once_witness :
  exists s1 s2,
    Ok 1000000000 imr_packet 0 one_sent = Some s1
    /\ Ok 1000000000 imr_packet 0 s1 = Some s2
    /\ pktInfoMap s2 = pktInfoMap s1
    /\ ints s2 nRec = ints s1 nRec
    /\ ints s2 nExpired = ints s1 nExpired.
Proof.
  destruct (Ok 1000000000 imr_packet 0 one_sent) as [s1|] eqn:E1;
    [|vm_compute in E1; discriminate E1].
  destruct (classified_at_most_once default_config one_sent)
    as (_ & _ & Hreplay & _).
  destruct (Hreplay 1000000000 imr_packet 0 s1 E1) as (s2 & E2 & Hmap & Hints & _).
  - intros info Hlook _. vm_compute in Hlook. injection Hlook as <-.
    vm_compute. reflexivity.
  - exists s1, s2. split; [reflexivity|]. split; [exact E2|].
    split; [exact Hmap|]. split; apply Hints; discriminate.
Defined.

(** A packet delivered twice, as by two gateways: one record, one packet
    received, two packets observed. *)
Example delivered_twice :
  (s ← run default_config
         [EvSent 0 imr_packet 0; EvOk 60000000000 imr_packet 0;
          EvOk 60000000000 imr_packet 1]
         three_devices;
   Some (m_status <$> pktInfoMap s !! 1,
         map (ints s) [nSent; nRec; nImrRec; nRecPerHour; nExpired; nTotalPkts],
         idvecs s okPkts, delayPerApp s))
  = Some (Some OK, [1; 1; 1; 1; 0; 2], [1], [60000%float; 0%float]).
Proof. vm_compute. reflexivity. Qed.

(** ** Clearing the containers *)

(** C9, as the code has it: [ClearData] empties the ledger and every
    vector (the id lists, the tables per spreading factor, the hourly
    samples and the delay sums per class); the scalar counters and sums
    keep their values, and so do the figures of the main report computed
    from them. *)
Theorem ClearData_empties_containers_only (s : State) :
  pktInfoMap (ClearData s) = ∅
  /\ (forall v, ivecs (ClearData s) v = [])
  /\ (forall v, idvecs (ClearData s) v = [])
  /\ pdrsPerHourVec (ClearData s) = []
  /\ delayPerApp (ClearData s) = []
  /\ ints (ClearData s) = ints s
  /\ dbls (ClearData s) = dbls s
  /\ endDevices (ClearData s) = endDevices s
  /\ (forall cfg, main_data cfg (ClearData s) = main_data cfg s).
Proof.
  repeat split.
  - intros v. by destruct v.
  - intros v. by destruct v.
Qed.

(** C9 as stated fails: after one packet was sent, [ClearData] leaves
    [nSent] at 1. *)
Lemma ClearData_zeroes_counters_counterexample :
  ~ (forall s x, ints (ClearData s) x = 0).
Proof.
  intros H. specialize (H (Sent 0 imr_packet 0 three_devices) nSent).
  vm_compute in H. discriminate H.
Qed.

(** One packet sent and received on time: the delivery ratio is 100 % before
    and after [ClearData]. *)
Example pdr_after_ClearData :
  (s ← run default_config [EvSent 0 imr_packet 0; EvOk 1000000000 imr_packet 0]
         three_devices;
   Some (pdr (main_data default_config s),
         pdr (main_data default_config (ClearData s)),
         ints (ClearData s) nSent, ints (ClearData s) nRec))
  = Some (100%float, 100%float, 1, 1).
Proof. vm_compute. reflexivity. Qed.

(** After [ClearData] the "nack" report would read [delayPerApp[0]] of an
    empty vector. *)
Example PrintMainData_after_ClearData :
  PrintMainData default_config (ClearData three_devices) = None.
Proof. vm_compute. reflexivity. Qed.

(** ** The node index under "asfa" *)

Lemma GetEdId_untracked pkt s :
  pktInfoMap s !! pktIdOf pkt = None -> GetEdId pkt s = -1.
Proof. intros H. unfold GetEdId. by rewrite H. Qed.

(** Under "asfa" an interference loss of a packet without a record never
    has a defined result: the index is 4294967295 whatever the state. *)
Lemma Interf_asfa_untracked cfg pkt gwId s :
  sfa cfg = "asfa" ->
  pktInfoMap s !! pktIdOf pkt = None ->
  Z.of_nat (length (endDevices s)) <= 4294967295 ->
  Interf cfg pkt gwId s = None.
Proof.
  intros Hsfa Hlook Hlen. unfold Interf.
  match goal with |- context [vec_incr ?v ?i ?st] =>
    destruct (vec_incr v i st) as [s1|] eqn:E; [|done] end.
  apply vec_incr_Some in E as (n & _ & ->). cbn [mbind option_bind].
  rewrite decide_True by done.
  unfold SetDataRate, Interf_node_index.
  rewrite GetEdId_untracked by done.
  unfold at_index. rewrite decide_False; [done|].
  simpl. change (Int.to_uint32 (-1)) with 4294967295. lia.
Qed.

(** C10 fails on the code: under "asfa", an interference loss of a packet
    that has no record makes [GetEdId] return -1, which as [uint32_t] is the
    index 4294967295, outside the container of three devices; the access
    has no defined result. *)
Theorem Interf_asfa_untracked_out_of_bounds :
  sfa asfa_config = "asfa"
  /\ pktInfoMap three_devices !! pktIdOf imr_packet = None
  /\ GetEdId imr_packet three_devices = -1
  /\ Interf_node_index imr_packet three_devices = 4294967295
  /\ Z.of_nat (length (endDevices three_devices)) = 3
  /\ Interf asfa_config imr_packet 0 three_devices = None.
Proof. vm_compute. done. Qed.

(** With a record, the index is the node id the send event carried. *)
Example Interf_asfa_tracked :
  (s ← Interf asfa_config imr_packet 0 (Sent 0 imr_packet 2 three_devices);
   Some (endDevices s))
  = Some [0; 0; 4].
Proof. vm_compute. reflexivity. Qed.

(** ** Figures of the main report *)

Lemma ratio100_zero_denominator num den : den <= 0 -> ratio100 num den = 0%float.
Proof. intros H. unfold ratio100. rewrite decide_False by lia. reflexivity. Qed.

Lemma mean_zero_denominator sum n : n <= 0 -> mean sum n = 0%float.
Proof. intros H. unfold mean. by rewrite decide_False by lia. Qed.

(** The figures the code guards are zero when their denominator is. *)
Lemma guarded_figures_zero cfg s :
  (ints s nSent <= 0 -> pdr (main_data cfg s) = 0%float)
  /\ (ints s nImrSent <= 0 -> imrPdr (main_data cfg s) = 0%float)
  /\ (ints s nPccSent <= 0 -> billingPdr (main_data cfg s) = 0%float)
  /\ (ints s nRec <= 0 ->
      avgDelay (main_data cfg s) = 0%float
      /\ avgRssi (main_data cfg s) = 0%float
      /\ avgSnr (main_data cfg s) = 0%float)
  /\ (ints s nTotalPkts <= 0 ->
      avgPktsRssi (main_data cfg s) = 0%float
      /\ avgPktsSnr (main_data cfg s) = 0%float).
Proof.
  repeat split; try intros H; cbn;
    first [by apply ratio100_zero_denominator | by apply mean_zero_denominator].
Qed.

(** C3 fails on the code: the divisions for the mean delay per class, the
    throughput and the energy figures are not guarded.  On the state of program
    start (nothing sent, nothing received, no energy drawn) the "nack"
    report holds NaN for both means per class and for ee1 to ee4; after
    one IMR packet was received and energy was drawn, the PCC mean is still
    NaN. *)
Theorem PrintMainData_zero_denominators_nan :
  PrintMainData default_config three_devices
  = Some [CInt 0; CInt 0; CDbl 0; CInt 0; CInt 0; CDbl 0; CInt 0; CInt 0; CDbl 0;
          CDbl 0; CDbl nan; CDbl nan; CDbl 0; CDbl 0; CDbl 0; CDbl 0;
          CDbl nan; CDbl nan; CDbl nan; CDbl nan; CDbl 0; CDbl 0]
  /\ (s ← run default_config [EvSent 0 imr_packet 0; EvOk 1000000000 imr_packet 0]
            three_devices;
      row ← PrintMainData default_config
              (CalcEnergyConsumption [Some 2%float; None; Some 1%float] s);
      Some (take 12 row))
     = Some [CInt 1; CInt 1; CDbl 100; CInt 1; CInt 1; CDbl 100;
             CInt 0; CInt 0; CDbl 0; CDbl 1000; CDbl 1000; CDbl nan]
  /\ ee1 (main_data default_config three_devices) = nan
  /\ tput (main_data {| nDevices := 0; simulationTimeSeconds := 0%float;
                        payloadSize := 51; txMode := "nack"; sfa := "" |}
             three_devices) = nan.
Proof. vm_compute. done. Qed.

(** ** Conservation of packets *)

Lemma wrap32_eq z : exists k, Int.wrap32 z = z + k * 2 ^ 32.
Proof.
  exists (- ((z + 2 ^ 31) / 2 ^ 32)). unfold Int.wrap32.
  pose proof (Z.div_mod (z + 2 ^ 31) (2 ^ 32)). lia.
Qed.

Lemma wrap32_shift z k : Int.wrap32 (z + k * 2 ^ 32) = Int.wrap32 z.
Proof.
  unfold Int.wrap32.
  replace (z + k * 2 ^ 32 + 2 ^ 31) with (z + 2 ^ 31 + k * 2 ^ 32) by lia.
  by rewrite Z.mod_add.
Qed.

Lemma wrap32_add_l a b : Int.wrap32 (Int.wrap32 a + b) = Int.wrap32 (a + b).
Proof.
  destruct (wrap32_eq a) as [k ->].
  replace (a + k * 2 ^ 32 + b) with (a + b + k * 2 ^ 32) by lia.
  apply wrap32_shift.
Qed.

Lemma resolved_total_plain s : resolved_total s = Int.wrap32 (plain_total s).
Proof.
  unfold resolved_total, plain_total, Int.add.
  destruct (wrap32_eq (ints s nRec + ints s nExpired)) as [k1 ->].
  destruct (wrap32_eq (ints s nInterf + ints s nUnder)) as [k2 ->].
  destruct (wrap32_eq (ints s nInterf + ints s nUnder + k2 * 2 ^ 32 + ints s nNoMore))
    as [k3 ->].
  destruct (wrap32_eq (ints s nInterf + ints s nUnder + k2 * 2 ^ 32 + ints s nNoMore
                       + k3 * 2 ^ 32 + ints s nBusy)) as [k4 ->].
  etransitivity; [|apply (wrap32_shift _ (k1 + k2 + k3 + k4))].
  f_equal. lia.
Qed.

(** Closes a goal [wrap32 (... + incr x + ...) = wrap32 (... + x + ... + 1)]:
    replacing one summand [x] by [x++] adds one to a sum, modulo 2^32. *)
Ltac incr_in_sum :=
  match goal with
  | |- context [Int.incr ?x] =>
      let k := fresh "k" in
      unfold Int.incr; destruct (wrap32_eq (x + 1)) as [k ->];
      etransitivity; [|apply (wrap32_shift _ k)]; f_equal; lia
  end.

Lemma Loss_total cfg c pkt gwId s s' :
  Loss cfg c pkt gwId s = Some s' ->
  pktInfoMap s' = pktInfoMap s
  /\ ints s' nSent = ints s nSent
  /\ Int.wrap32 (plain_total s') = Int.wrap32 (plain_total s + 1).
Proof.
  intros H. apply Loss_Some in H as (_ & _ & Hmap & Hints & _).
  split; [exact Hmap|]. unfold plain_total. rewrite Hints.
  split; [by destruct c|].
  destruct c; simpl; incr_in_sum.
Qed.

Lemma Ok_first_total now pkt gwId s s' info :
  Ok now pkt gwId s = Some s' ->
  pktInfoMap s !! pktIdOf pkt = Some info -> ~ delivered info ->
  (exists info', pktInfoMap s' = <[pktIdOf pkt := info']> (pktInfoMap s))
  /\ ints s' nSent = ints s nSent
  /\ Int.wrap32 (plain_total s') = Int.wrap32 (plain_total s + 1).
Proof.
  intros Hok Hlook Hnew. revert Hok. first_delivery Hlook Hnew.
  unfold plain_total.
  destruct (classify _ _); intros Hok.
  - apply delayPerApp_add_Some in Hok as (x & _ & ->).
    split; [eexists; reflexivity|]. split; [reflexivity|].
    simpl. incr_in_sum.
  - apply delayPerApp_add_Some in Hok as (x & _ & ->).
    split; [eexists; reflexivity|]. split; [reflexivity|].
    simpl. incr_in_sum.
  - apply vec_incr_Some in Hok as (n & _ & ->).
    split; [eexists; reflexivity|]. split; [reflexivity|].
    simpl. incr_in_sum.
Qed.

Lemma ledger_matches_initial devs : ledger_matches ∅ ∅ (initial_state devs).
Proof.
  split; [apply dom_empty_L|]. split; [done|].
  split; [intros id info H; simpl in H; by rewrite lookup_empty in H|].
  by split.
Qed.

Lemma size_add_fresh (id : Z) (X : gset Z) :
  id ∉ X -> Z.of_nat (size ({[id]} ∪ X)) = Z.of_nat (size X) + 1.
Proof.
  intros H. rewrite size_union by set_solver. rewrite size_singleton. lia.
Qed.

Lemma ledger_matches_Sent sent resolved now pkt edId s :
  ledger_matches sent resolved s ->
  ledger_matches ({[pktIdOf pkt]} ∪ sent) resolved (Sent now pkt edId s).
Proof.
  intros (Hdom & Hsub & Hrec & Hsent & Htot). unfold Sent.
  destruct (pktInfoMap s !! pktIdOf pkt) as [old|] eqn:E.
  - assert (pktIdOf pkt ∈ sent) as Hin
      by (rewrite <- Hdom; apply elem_of_dom; eauto).
    replace ({[pktIdOf pkt]} ∪ sent) with sent by set_solver.
    by repeat split.
  - assert (pktIdOf pkt ∉ sent) as Hout
      by (rewrite <- Hdom; by apply not_elem_of_dom).
    split; [|split; [|split; [|split]]].
    + destruct (GetMsgType pkt); simpl; by rewrite dom_insert_L, Hdom.
    + set_solver.
    + intros id info Hl Hres.
      assert (pktInfoMap
                (set_map (<[pktIdOf pkt :=
                              set_status SENT
                                (mkPacketInfo (pktIdOf pkt) (Int.wrap32 edId) (nowMs now))]>
                            (pktInfoMap s)) s) !! id = Some info) as Hl'
        by (by destruct (GetMsgType pkt)).
      simpl in Hl'. destruct (decide (id = pktIdOf pkt)) as [->|Hne].
      * rewrite lookup_insert_eq in Hl'. injection Hl' as <-.
        apply new_record_not_delivered.
      * rewrite lookup_insert_ne in Hl' by done. by apply (Hrec id).
    + rewrite size_add_fresh by done.
      rewrite <- wrap32_add_l, <- Hsent. by destruct (GetMsgType pkt).
    + rewrite <- Htot. by destruct (GetMsgType pkt).
Qed.

Lemma ledger_matches_outcome cfg sent resolved ev id s s' :
  ledger_matches sent resolved s ->
  outcome_of ev = Some id -> id ∈ sent -> id ∉ resolved ->
  handle cfg ev s = Some s' ->
  ledger_matches sent ({[id]} ∪ resolved) s'.
Proof.
  intros (Hdom & Hsub & Hrec & Hsent & Htot) Hout Hin Hfresh Hev.
  assert (exists info, pktInfoMap s !! id = Some info /\ ~ delivered info)
    as (info & Hlook & Hnew).
  { rewrite <- Hdom in Hin. apply elem_of_dom in Hin as [info Hinfo].
    exists info. split; [done|]. by apply (Hrec id). }
  assert ((exists info', pktInfoMap s' = <[id := info']> (pktInfoMap s)
                         \/ pktInfoMap s' = pktInfoMap s)
          /\ ints s' nSent = ints s nSent
          /\ Int.wrap32 (plain_total s') = Int.wrap32 (plain_total s + 1))
    as ((info' & Hmap) & HnSent & Hplain).
  { destruct ev as [now pkt edId|now pkt gwId|pkt gwId|pkt gwId|pkt gwId|pkt gwId
                   |now reqTx success firstAttempt packet|];
      try discriminate Hout; injection Hout as <-; cbn [handle] in Hev.
    - destruct (Ok_first_total _ _ _ _ _ _ Hev Hlook Hnew) as ((i' & Hm) & ? & ?).
      split; [exists i'; by left | done].
    - destruct (Loss_total cfg ByInterf _ _ _ _ Hev) as (Hm & ? & ?).
      split; [exists info; by right | done].
    - destruct (Loss_total cfg ByUnder _ _ _ _ Hev) as (Hm & ? & ?).
      split; [exists info; by right | done].
    - destruct (Loss_total cfg ByNoMore _ _ _ _ Hev) as (Hm & ? & ?).
      split; [exists info; by right | done].
    - destruct (Loss_total cfg ByBusy _ _ _ _ Hev) as (Hm & ? & ?).
      split; [exists info; by right | done]. }
  split; [|split; [|split; [|split]]].
  - destruct Hmap as [-> | ->]; [|done].
    rewrite dom_insert_L, Hdom. set_solver.
  - set_solver.
  - intros id' rec Hl Hres.
    assert (id' <> id) as Hne by set_solver.
    apply (Hrec id'); [|set_solver].
    destruct Hmap as [Hm | Hm]; rewrite Hm in Hl; [|done].
    by rewrite lookup_insert_ne in Hl.
  - by rewrite HnSent.
  - rewrite size_add_fresh by done.
    rewrite Hplain, <- wrap32_add_l, Htot, wrap32_add_l. done.
Qed.

Lemma ledger_matches_other cfg sent resolved ev s s' :
  ledger_matches sent resolved s ->
  outcome_of ev = None -> (forall now pkt edId, ev <> EvSent now pkt edId) ->
  handle cfg ev s = Some s' ->
  ledger_matches sent resolved s'.
Proof.
  intros (Hdom & Hsub & Hrec & Hsent & Htot) Hout Hns Hev.
  destruct ev as [now pkt edId|now pkt gwId|pkt gwId|pkt gwId|pkt gwId|pkt gwId
                 |now reqTx success firstAttempt [pkt|]|];
    try discriminate Hout; [by destruct (Hns now pkt edId)| | |];
    cbn [handle] in Hev; injection Hev as <-; [|by repeat split..].
  unfold RequiredTransmissionsCallback.
  destruct (pktInfoMap s !! pktIdOf pkt) as [rec|] eqn:E; [|by repeat split].
  destruct (success && _); [|by repeat split].
  split; [|split; [|split; [|split]]]; try done.
  - simpl. rewrite dom_insert_L, Hdom.
    assert (pktIdOf pkt ∈ sent) by (rewrite <- Hdom; apply elem_of_dom; eauto).
    set_solver.
  - intros id info Hl Hres. simpl in Hl.
    destruct (decide (id = pktIdOf pkt)) as [->|Hne].
    + rewrite lookup_insert_eq in Hl. injection Hl as <-.
      by apply (Hrec _ _ E).
    + rewrite lookup_insert_ne in Hl by done. by apply (Hrec id).
Qed.

Lemma conservation_from cfg evs :
  forall sent resolved s s',
    ledger_matches sent resolved s ->
    resolves_once sent resolved evs = true ->
    run cfg evs s = Some s' ->
    ints s' nSent = resolved_total s'.
Proof.
  induction evs as [|ev evs IH]; intros sent resolved s s' Hinv Hres Hrun.
  - simpl in Hres, Hrun. injection Hrun as <-.
    apply bool_decide_eq_true in Hres as ->.
    destruct Hinv as (_ & _ & _ & Hsent & Htot).
    by rewrite resolved_total_plain, Htot.
  - simpl in Hrun.
    destruct (handle cfg ev s) as [s1|] eqn:Hev; [|discriminate Hrun].
    simpl in Hrun.
    destruct (outcome_of ev) as [id|] eqn:Hout.
    + assert (resolves_once sent resolved (ev :: evs)
              = bool_decide (id ∈ sent) && bool_decide (id ∉ resolved)
                && resolves_once sent ({[id]} ∪ resolved) evs) as Heq.
      { destruct ev; try discriminate Hout; simpl in Hout; by injection Hout as <-. }
      rewrite Heq in Hres.
      apply andb_true_iff in Hres as [Hres Hrest].
      apply andb_true_iff in Hres as [Hin Hfresh].
      apply bool_decide_eq_true in Hin, Hfresh.
      eapply IH; [|exact Hrest|exact Hrun].
      by eapply ledger_matches_outcome.
    + destruct ev as [now pkt edId|now pkt gwId|pkt gwId|pkt gwId|pkt gwId|pkt gwId
                     |now reqTx success firstAttempt packet|];
        try discriminate Hout.
      * simpl in Hres, Hev. injection Hev as <-.
        eapply IH; [|exact Hres|exact Hrun].
        by apply ledger_matches_Sent.
      * simpl in Hres. eapply IH; [|exact Hres|exact Hrun].
        by eapply ledger_matches_other.
      * simpl in Hres. eapply IH; [|exact Hres|exact Hrun].
        by eapply ledger_matches_other.
Qed.

(** C2, as the code has it: for a sequence of events in which every
    outcome event (delivery or loss) is about a packet sent earlier and not
    yet resolved, and every packet sent has its outcome by the end, the
    counters of a run from program start satisfy
    [nSent == nRec + nExpired + (nInterf + nUnder + nNoMore + nBusy)]. *)
Theorem resolved_run_conservation (cfg : Config) (devs : list Z) (evs : list Event)
    (s : State) :
  resolves_once ∅ ∅ evs = true ->
  run cfg evs (initial_state devs) = Some s ->
  ints s nSent = resolved_total s.
Proof.
  intros Hres Hrun.
  by apply (conservation_from cfg evs ∅ ∅ (initial_state devs) s
              (ledger_matches_initial devs)).
Qed.

Lemma resolved_run_conservation_witness :
  exists s,
    run default_config resolved_trace three_devices = Some s
    /\ ints s nSent = resolved_total s.
Proof.
  destruct (run default_config resolved_trace three_devices) as [s|] eqn:E;
    [|vm_compute in E; discriminate E].
  exists s. split; [reflexivity|].
  apply (resolved_run_conservation default_config [0; 0; 0] resolved_trace s);
    [vm_compute; reflexivity | exact E].
Defined.

(** C2 as stated fails: one packet sent and delivered, and a loss event
    about a packet that was never sent.  The only sent packet has exactly
    one outcome event, yet [nSent] is 1 and the sum is 2. *)
Lemma stray_loss_counterexample :
  ~ (forall cfg devs evs s,
       Forall (fun id => outcome_count evs id = 1%nat) (sent_ids evs) ->
       run cfg evs (initial_state devs) = Some s ->
       ints s nSent = resolved_total s).
Proof.
  intros H.
  destruct (run default_config stray_loss_trace (initial_state [0; 0; 0]))
    as [s|] eqn:E; [|vm_compute in E; discriminate E].
  assert (ints s nSent = resolved_total s) as Heq.
  { apply (H default_config [0; 0; 0] stray_loss_trace s); [|exact E].
    repeat constructor. }
  assert (Some (ints s nSent, resolved_total s) = Some (1, 2)) as Hval.
  { transitivity (s0 ← Some s; Some (ints s0 nSent, resolved_total s0));
      [reflexivity|].
    rewrite <- E. vm_compute. reflexivity. }
  injection Hval as H1 H2. rewrite H1, H2 in Heq. discriminate Heq.
Qed.

(** The condition of [resolved_run_conservation] gives every packet sent
    exactly one outcome event, and no outcome event to any other packet. *)
Lemma resolves_once_outcome_count evs :
  forall sent resolved id,
    resolves_once sent resolved evs = true ->
    outcome_count evs id
    = if decide (id ∈ resolved) then 0%nat
      else if decide (id ∈ sent \/ id ∈ sent_ids evs) then 1%nat else 0%nat.
Proof.
  unfold outcome_count.
  induction evs as [|ev evs IH]; intros sent resolved id Hres.
  - simpl in Hres. apply bool_decide_eq_true in Hres as ->.
    simpl. repeat case_decide; set_solver.
  - rewrite filter_cons.
    destruct (outcome_of ev) as [j|] eqn:Hout.
    + assert (resolves_once sent resolved (ev :: evs)
              = bool_decide (j ∈ sent) && bool_decide (j ∉ resolved)
                && resolves_once sent ({[j]} ∪ resolved) evs) as Heq.
      { destruct ev; try discriminate Hout; simpl in Hout; by injection Hout as <-. }
      rewrite Heq in Hres.
      apply andb_true_iff in Hres as [Hres Hrest].
      apply andb_true_iff in Hres as [Hin Hfresh].
      apply bool_decide_eq_true in Hin, Hfresh.
      assert (sent_ids (ev :: evs) = sent_ids evs) as ->
        by (destruct ev; by try discriminate Hout).
      specialize (IH sent ({[j]} ∪ resolved) id Hrest).
      destruct (decide (Some j = Some id)) as [[= ->]|Hne]; simpl; rewrite IH.
      * rewrite decide_True by set_solver.
        rewrite decide_False by done. by rewrite decide_True by (by left).
      * assert (j <> id) by congruence.
        repeat case_decide; set_solver.
    + rewrite decide_False by done.
      destruct ev as [now pkt edId|now pkt gwId|pkt gwId|pkt gwId|pkt gwId|pkt gwId
                     |now reqTx success firstAttempt packet|];
        try discriminate Hout; simpl in Hres.
      * rewrite (IH _ _ id Hres).
        change (sent_ids (EvSent now pkt edId :: evs))
          with (pktIdOf pkt :: sent_ids evs).
        repeat case_decide; set_solver.
      * rewrite (IH _ _ id Hres). done.
      * rewrite (IH _ _ id Hres). done.
Qed.

Lemma resolves_once_each_sent_once evs :
  resolves_once ∅ ∅ evs = true ->
  Forall (fun id => outcome_count evs id = 1%nat) (sent_ids evs)
  /\ (forall id, id ∉ sent_ids evs -> outcome_count evs id = 0%nat).
Proof.
  intros Hres. split.
  - apply Forall_forall. intros id Hin.
    rewrite (resolves_once_outcome_count evs ∅ ∅ id Hres).
    rewrite decide_False by set_solver. by rewrite decide_True by (by right).
  - intros id Hout.
    rewrite (resolves_once_outcome_count evs ∅ ∅ id Hres).
    rewrite decide_False by set_solver. rewrite decide_False by set_solver. done.
Qed.

(** ** Runs have a result *)

Ltac solve_allocated Halloc :=
  let Hvec := fresh "Hvec" in
  let Hdpa := fresh "Hdpa" in
  destruct Halloc as [Hvec Hdpa];
  split; [intros ?|]; simpl; repeat case_decide; rewrite ?length_insert; auto.

Lemma handle_allocated cfg ev s s' :
  handle cfg ev s = Some s' -> allocated s -> allocated s'.
Proof.
  intros Hev Halloc.
  destruct ev as [now pkt edId|now pkt gwId|pkt gwId|pkt gwId|pkt gwId|pkt gwId
                 |now reqTx success firstAttempt [pkt|]|]; cbn [handle] in Hev.
  - injection Hev as <-. by apply allocated_Sent.
  - unfold Ok in Hev.
    destruct (pktInfoMap s !! pktIdOf pkt) as [rec|];
      [|by injection Hev as <-].
    destruct (Double.neqb _ _); [by injection Hev as <-|].
    destruct (classify _ _).
    + apply delayPerApp_add_Some in Hev as (x & _ & ->). solve_allocated Halloc.
    + apply delayPerApp_add_Some in Hev as (x & _ & ->). solve_allocated Halloc.
    + apply vec_incr_Some in Hev as (n & _ & ->). solve_allocated Halloc.
  - apply (Loss_Some cfg ByInterf) in Hev as (n & _ & _ & _ & _ & Hv & Ho & Hd).
    destruct Halloc as [Hvec Hdpa]. split; [intros v|by rewrite Hd].
    destruct (decide (v = cause_buckets ByInterf)) as [->|Hne];
      [rewrite Hv; by rewrite length_insert | by rewrite Ho].
  - apply (Loss_Some cfg ByUnder) in Hev as (n & _ & _ & _ & _ & Hv & Ho & Hd).
    destruct Halloc as [Hvec Hdpa]. split; [intros v|by rewrite Hd].
    destruct (decide (v = cause_buckets ByUnder)) as [->|Hne];
      [rewrite Hv; by rewrite length_insert | by rewrite Ho].
  - apply (Loss_Some cfg ByNoMore) in Hev as (n & _ & _ & _ & _ & Hv & Ho & Hd).
    destruct Halloc as [Hvec Hdpa]. split; [intros v|by rewrite Hd].
    destruct (decide (v = cause_buckets ByNoMore)) as [->|Hne];
      [rewrite Hv; by rewrite length_insert | by rewrite Ho].
  - apply (Loss_Some cfg ByBusy) in Hev as (n & _ & _ & _ & _ & Hv & Ho & Hd).
    destruct Halloc as [Hvec Hdpa]. split; [intros v|by rewrite Hd].
    destruct (decide (v = cause_buckets ByBusy)) as [->|Hne];
      [rewrite Hv; by rewrite length_insert | by rewrite Ho].
  - injection Hev as <-. unfold RequiredTransmissionsCallback.
    destruct (pktInfoMap s !! pktIdOf pkt); [|done].
    by destruct (success && _).
  - by injection Hev as <-.
  - by injection Hev as <-.
Qed.

Lemma handle_is_Some cfg ev s :
  allocated s -> valid_event ev -> sfa cfg <> "asfa" ->
  is_Some (handle cfg ev s).
Proof.
  intros Halloc Hvalid Hsfa.
  destruct ev as [now pkt edId|now pkt gwId|pkt gwId|pkt gwId|pkt gwId|pkt gwId
                 |now reqTx success firstAttempt packet|]; cbn [handle]; try by eauto.
  - unfold Ok.
    destruct (pktInfoMap s !! pktIdOf pkt) as [rec|]; [|by eauto].
    destruct (Double.neqb _ _); [by eauto|].
    destruct Halloc as [Hvec Hdpa].
    destruct (classify _ _).
    + apply delayPerApp_add_in_range. simpl. rewrite Hdpa. lia.
    + apply delayPerApp_add_in_range. simpl. rewrite Hdpa. lia.
    + apply vec_incr_in_range. simpl. rewrite Hvec.
      pose proof (index_of_valid_sf pkt Hvalid). lia.
  - apply (Loss_is_Some cfg ByInterf pkt gwId s); [done..|]. by intros _ ?.
  - apply (Loss_is_Some cfg ByUnder pkt gwId s); [done..|]. by intros _ ?.
  - apply (Loss_is_Some cfg ByNoMore pkt gwId s); [done..|]. by intros _ ?.
  - apply (Loss_is_Some cfg ByBusy pkt gwId s); [done..|]. by intros _ ?.
Qed.

(** From a state whose vectors have their sizes, a run over packets with
    spreading factors SF7..SF12 has a result (outside "asfa"). *)
Lemma run_completes cfg evs :
  forall s, allocated s -> Forall valid_event evs -> sfa cfg <> "asfa" ->
            is_Some (run cfg evs s).
Proof.
  induction evs as [|ev evs IH]; intros s Halloc Hvalid Hsfa; [by eauto|].
  apply Forall_cons in Hvalid as [Hev Hrest]. simpl.
  destruct (handle_is_Some cfg ev s Halloc Hev Hsfa) as [s1 Hs1].
  rewrite Hs1. simpl. apply IH; [|done..].
  by eapply handle_allocated.
Qed.

(** ** Invariants of a run *)

(** A property that holds at the start and is kept by every callback holds
    at the end of a run. *)
Lemma run_invariant cfg (P : State -> Prop) evs :
  forall s s',
    P s ->
    (forall ev s1 s2, P s1 -> handle cfg ev s1 = Some s2 -> P s2) ->
    run cfg evs s = Some s' -> P s'.
Proof.
  induction evs as [|ev evs IH]; intros s s' Hs Hstep Hrun; simpl in Hrun.
  - by injection Hrun as <-.
  - destruct (handle cfg ev s) as [s1|] eqn:Hev; [|discriminate Hrun].
    simpl in Hrun. eapply IH; [|exact Hstep|exact Hrun]. by eapply Hstep.
Qed.

(** Splits [Hev : handle cfg ev s = Some s'] into the paths through the
    callbacks, with [s'] replaced by the state the path builds. *)
Ltac handle_cases Hev :=
  match type of Hev with
  | handle _ ?ev _ = Some _ =>
      destruct ev as [?now ?pkt ?edId|?now ?pkt ?gwId|?pkt ?gwId|?pkt ?gwId
                     |?pkt ?gwId|?pkt ?gwId
                     |?now ?reqTx ?success ?firstAttempt [?pkt|]|];
      cbn [handle] in Hev
  end;
  [ injection Hev as <-; unfold Sent;
    match goal with
    | |- context [pktInfoMap ?s !! pktIdOf ?pkt] =>
        let E := fresh "Hlook" in
        destruct (pktInfoMap s !! pktIdOf pkt) eqn:E;
        [|destruct (GetMsgType pkt)]
    end
  | unfold Ok in Hev;
    match type of Hev with
    | context [pktInfoMap ?s !! pktIdOf ?pkt] =>
        let E := fresh "Hlook" in
        destruct (pktInfoMap s !! pktIdOf pkt) eqn:E;
        [ match type of Hev with
          | context [Double.neqb ?a ?b] =>
              let D := fresh "Hdel" in
              destruct (Double.neqb a b) eqn:D;
              [ injection Hev as <-
              | match type of Hev with
                | context [classify ?t ?d] =>
                    let V := fresh "Hverdict" in
                    destruct (classify t d) eqn:V;
                    [ apply delayPerApp_add_Some in Hev as (?x & ?Hx & ->)
                    | apply delayPerApp_add_Some in Hev as (?x & ?Hx & ->)
                    | apply vec_incr_Some in Hev as (?n & ?Hn & ->) ]
                end ]
          end
        | injection Hev as <- ]
    end
  | unfold Interf in Hev;
    match type of Hev with
    | context [vec_incr ?v ?i ?st] =>
        let E := fresh "Hvec" in
        destruct (vec_incr v i st) eqn:E; [|discriminate Hev];
        apply vec_incr_Some in E as (?n & ?Hn & ->);
        cbn [mbind option_bind] in Hev;
        match type of Hev with
        | context [decide ?P] =>
            destruct (decide P);
            [ unfold SetDataRate in Hev;
              match type of Hev with
              | context [at_index ?l ?j] =>
                  let A := fresh "Hdev" in
                  destruct (at_index l j) eqn:A; [|discriminate Hev]
              end
            | ];
            injection Hev as <-
        end
    end
  | unfold Under in Hev; apply vec_incr_Some in Hev as (?n & ?Hn & ->)
  | unfold NoMore in Hev; apply vec_incr_Some in Hev as (?n & ?Hn & ->)
  | unfold Busy in Hev; apply vec_incr_Some in Hev as (?n & ?Hn & ->)
  | injection Hev as <-; unfold RequiredTransmissionsCallback;
    match goal with
    | |- context [pktInfoMap ?s !! pktIdOf ?pkt] =>
        let E := fresh "Hlook" in
        destruct (pktInfoMap s !! pktIdOf pkt) eqn:E;
        [ match goal with
          | |- context [?a && ?b] =>
              let A := fresh "Hack" in destruct (a && b) eqn:A
          end
        | ]
    end
  | injection Hev as <-
  | injection Hev as <- ].

(** Removes one [wrap32] nested in a sum under a [wrap32]; a sum of values
    and the same sum of their wrapped values wrap to the same [int]. *)
Ltac unwrap_inner :=
  match goal with
  | |- context [Int.wrap32 ?A] =>
      match A with
      | context C [Int.wrap32 ?z] =>
          let A0 := context C [z] in
          let k := fresh "k" in
          let Hk := fresh "Hk" in
          destruct (wrap32_eq z) as [k Hk];
          replace (Int.wrap32 A) with (Int.wrap32 (A0 + k * 2 ^ 32))
            by (f_equal; rewrite Hk; lia);
          rewrite (wrap32_shift A0 k); clear k Hk
      end
  end.

Ltac wrap_arith :=
  unfold Int.incr, Int.add; repeat unwrap_inner; first [reflexivity | f_equal; lia].

Lemma counters_consistent_step cfg ev s s' :
  counters_consistent s -> handle cfg ev s = Some s' -> counters_consistent s'.
Proof.
  intros [Hlost Hrec] Hev.
  handle_cases Hev; split; simpl; try done;
    rewrite ?Hlost, ?Hrec; wrap_arith.
Qed.

Lemma total_insert (l : list Z) (i : nat) (n m : Z) :
  l !! i = Some n -> total (<[i := m]> l) = total l - n + m.
Proof.
  revert i. induction l as [|x l IH]; intros [|i] H; try discriminate H.
  - injection H as ->. simpl. lia.
  - simpl in *. rewrite (IH i H). lia.
Qed.

Lemma total_replicate_zero n : total (replicate n 0) = 0.
Proof. induction n as [|n IH]; simpl; [done|]. by rewrite IH. Qed.

(** Uses the bucket read by the path, [Hn : at_index l i = Some n], to
    rewrite the total of the vector written. *)
Ltac use_bucket :=
  repeat match goal with
         | Hn : at_index _ _ = Some _ |- _ =>
             apply at_index_Some in Hn as [_ Hn]; simpl in Hn
         end;
  repeat match goal with
         | Hn : _ !! _ = Some _ |- _ => rewrite (total_insert _ _ _ _ Hn)
         end.

Lemma buckets_consistent_step cfg ev s s' :
  buckets_consistent s -> handle cfg ev s = Some s' -> buckets_consistent s'.
Proof.
  intros [Hcause Hexp] Hev.
  pose proof (Hcause ByInterf) as Hi. pose proof (Hcause ByUnder) as Hu.
  pose proof (Hcause ByNoMore) as Hm. pose proof (Hcause ByBusy) as Hb.
  simpl in Hi, Hu, Hm, Hb.
  handle_cases Hev; (split; [intros []|]); simpl; try done;
    use_bucket; rewrite ?Hi, ?Hu, ?Hm, ?Hb, ?Hexp; wrap_arith.
Qed.

Lemma lists_consistent_step cfg ev s s' :
  lists_consistent s -> handle cfg ev s = Some s' -> lists_consistent s'.
Proof.
  intros (Hcause & Hok & Hexp) Hev.
  pose proof (Hcause ByInterf) as Hi. pose proof (Hcause ByUnder) as Hu.
  pose proof (Hcause ByNoMore) as Hm. pose proof (Hcause ByBusy) as Hb.
  simpl in Hi, Hu, Hm, Hb.
  handle_cases Hev; (split; [intros []|split]); simpl; try done;
    rewrite ?length_app, ?Nat2Z.inj_add; simpl;
    rewrite ?Hi, ?Hu, ?Hm, ?Hb, ?Hok, ?Hexp; wrap_arith.
Qed.

Lemma records_insert (P : Z -> PacketInfo -> Prop) (m : gmap Z PacketInfo) k rec :
  (forall id info, m !! id = Some info -> P id info) ->
  P k rec ->
  forall id info, <[k := rec]> m !! id = Some info -> P id info.
Proof.
  intros Hm Hk id info H.
  apply lookup_insert_Some in H as [[<- <-]|[_ H]]; [done|by apply Hm].
Qed.

Lemma ledger_consistent_step cfg ev s s' :
  ledger_consistent s -> handle cfg ev s = Some s' -> ledger_consistent s'.
Proof.
  intros [Hsize Hrec] Hev.
  handle_cases Hev; split; simpl; try done;
    try (rewrite map_size_insert_None by done; rewrite Hsize, Nat2Z.inj_succ;
         wrap_arith);
    try (rewrite map_size_insert_Some by eauto; exact Hsize);
    try (apply (records_insert
                  (fun id info => m_pktId info = id
                                  /\ m_status info <> LOST
                                  /\ (m_status info = SENT
                                      -> m_delay info = (-1)%float)));
         [exact Hrec|];
         try (destruct (Hrec _ _ Hlook) as (? & ? & ?)); by repeat split).
Qed.

(** X1: at the end of every run from program start, [nLost] is the sum of
    the four loss-cause counters and [nRec] is the sum of the two per-class
    received counters (in [int] arithmetic). *)
Theorem run_loss_and_class_totals (cfg : Config) (devs : list Z)
    (evs : list Event) (s : State) :
  run cfg evs (initial_state devs) = Some s ->
  ints s nLost
    = Int.wrap32 (ints s nInterf + ints s nUnder + ints s nNoMore + ints s nBusy)
  /\ ints s nRec = Int.wrap32 (ints s nImrRec + ints s nPccRec).
Proof.
  apply (run_invariant cfg counters_consistent evs (initial_state devs) s).
  - by split.
  - intros ev s1 s2. apply counters_consistent_step.
Qed.

Lemma run_loss_and_class_totals_witness :
  exists s, run default_config busy_trace three_devices = Some s
    /\ ints s nLost
       = Int.wrap32 (ints s nInterf + ints s nUnder + ints s nNoMore + ints s nBusy)
    /\ ints s nRec = Int.wrap32 (ints s nImrRec + ints s nPccRec).
Proof.
  destruct (run default_config busy_trace three_devices) as [s|] eqn:E;
    [|vm_compute in E; discriminate E].
  exists s. split; [reflexivity|].
  exact (run_loss_and_class_totals default_config [0; 0; 0] busy_trace s E).
Defined.

(** X2: at the end of every run from program start, the six buckets of
    each per-spreading-factor loss table add up to the counter of its
    cause, and the buckets of [expPerSf] add up to [nExpired]: every loss
    and every expiry is counted in exactly one bucket. *)
Theorem run_bucket_totals (cfg : Config) (devs : list Z)
    (evs : list Event) (s : State) :
  run cfg evs (initial_state devs) = Some s ->
  (forall c, ints s (cause_counter c)
             = Int.wrap32 (total (ivecs s (cause_buckets c))))
  /\ ints s nExpired = Int.wrap32 (total (ivecs s expPerSf)).
Proof.
  apply (run_invariant cfg buckets_consistent evs (initial_state devs) s).
  - split; [intros c|]; reflexivity.
  - intros ev s1 s2. apply buckets_consistent_step.
Qed.

Lemma run_bucket_totals_witness :
  exists s, run default_config busy_trace three_devices = Some s
    /\ (forall c, ints s (cause_counter c)
                  = Int.wrap32 (total (ivecs s (cause_buckets c))))
    /\ ints s nExpired = Int.wrap32 (total (ivecs s expPerSf)).
Proof.
  destruct (run default_config busy_trace three_devices) as [s|] eqn:E;
    [|vm_compute in E; discriminate E].
  exists s. split; [reflexivity|].
  exact (run_bucket_totals default_config [0; 0; 0] busy_trace s E).
Defined.

(** X3: at the end of every run from program start, each list of packet
    ids is as long as its counter says: [interfPkts], [underPkts],
    [noMorePkts], [busyPkts] against the cause counters, [okPkts] against
    [nRec] and [expiredPkts] against [nExpired]. *)
Theorem run_id_list_lengths (cfg : Config) (devs : list Z)
    (evs : list Event) (s : State) :
  run cfg evs (initial_state devs) = Some s ->
  (forall c, ints s (cause_counter c)
             = Int.wrap32 (Z.of_nat (length (idvecs s (cause_ids c)))))
  /\ ints s nRec = Int.wrap32 (Z.of_nat (length (idvecs s okPkts)))
  /\ ints s nExpired = Int.wrap32 (Z.of_nat (length (idvecs s expiredPkts))).
Proof.
  apply (run_invariant cfg lists_consistent evs (initial_state devs) s).
  - split; [intros c|split]; reflexivity.
  - intros ev s1 s2. apply lists_consistent_step.
Qed.

Lemma run_id_list_lengths_witness :
  exists s, run default_config busy_trace three_devices = Some s
    /\ (forall c, ints s (cause_counter c)
                  = Int.wrap32 (Z.of_nat (length (idvecs s (cause_ids c)))))
    /\ ints s nRec = Int.wrap32 (Z.of_nat (length (idvecs s okPkts)))
    /\ ints s nExpired = Int.wrap32 (Z.of_nat (length (idvecs s expiredPkts))).
Proof.
  destruct (run default_config busy_trace three_devices) as [s|] eqn:E;
    [|vm_compute in E; discriminate E].
  exists s. split; [reflexivity|].
  exact (run_id_list_lengths default_config [0; 0; 0] busy_trace s E).
Defined.

(** X4: at the end of every run from program start, [nSent] is the number
    of records in the ledger; every record is filed under its own packet
    id, no record has status [LOST], and a record with status [SENT] still
    has the delay -1 of a packet not delivered. *)
Theorem run_ledger_records (cfg : Config) (devs : list Z)
    (evs : list Event) (s : State) :
  run cfg evs (initial_state devs) = Some s ->
  ints s nSent = Int.wrap32 (Z.of_nat (size (pktInfoMap s)))
  /\ (forall id info, pktInfoMap s !! id = Some info ->
      m_pktId info = id
      /\ m_status info <> LOST
      /\ (m_status info = SENT -> m_delay info = (-1)%float)).
Proof.
  apply (run_invariant cfg ledger_consistent evs (initial_state devs) s).
  - split; [reflexivity|]. intros id info H. simpl in H.
    by rewrite lookup_empty in H.
  - intros ev s1 s2. apply ledger_consistent_step.
Qed.

Lemma run_ledger_records_witness :
  exists s, run default_config busy_trace three_devices = Some s
    /\ ints s nSent = Int.wrap32 (Z.of_nat (size (pktInfoMap s)))
    /\ (forall id info, pktInfoMap s !! id = Some info ->
        m_pktId info = id
        /\ m_status info <> LOST
        /\ (m_status info = SENT -> m_delay info = (-1)%float)).
Proof.
  destruct (run default_config busy_trace three_devices) as [s|] eqn:E;
    [|vm_compute in E; discriminate E].
  exists s. split; [reflexivity|].
  exact (run_ledger_records default_config [0; 0; 0] busy_trace s E).
Defined.

(** The counters and tables at the end of [busy_trace]. *)
Example busy_trace_counters :
  (s ← run default_config busy_trace three_devices;
   Some (map (ints s) [nSent; nRec; nImrRec; nPccRec; nExpired; nLost;
                       nUnder; nBusy; nNoMore; nInterf; nRecAck; nReqTx],
         ivecs s underPerSf, ivecs s expPerSf, idvecs s expiredPkts,
         pdrsPerHourVec s))
  = Some ([2; 1; 1; 0; 1; 3; 1; 1; 1; 0; 1; 2],
          [0; 0; 0; 0; 0; 1], [0; 0; 0; 0; 0; 1], [2],
          [50%float; 0%float]).
Proof. vm_compute. reflexivity. Qed.

(** ** The hourly samples over a run *)

Lemma handle_samples cfg ev s s' :
  handle cfg ev s = Some s' ->
  exists new, pdrsPerHourVec s' = pdrsPerHourVec s ++ new
              /\ length new = ticks [ev] /\ samples_bounded new.
Proof.
  intros Hev.
  destruct (is_tick ev) eqn:Htick.
  - destruct ev; try discriminate Htick. injection Hev as <-.
    eexists [_]. split; [reflexivity|]. split; [reflexivity|].
    constructor; [apply window_sample_le_100 | constructor].
  - exists []. rewrite app_nil_r. unfold ticks. simpl. rewrite Htick.
    split; [|split; [reflexivity|constructor]].
    handle_cases Hev; try discriminate Htick; reflexivity.
Qed.

(** X5: over any run the hourly samples are only appended to: the final
    [pdrsPerHourVec] is the initial one followed by exactly one new sample
    per sampler tick of the run, and every new sample is at most 100. *)
Theorem run_samples_appended (cfg : Config) (evs : list Event) (s s' : State) :
  run cfg evs s = Some s' ->
  exists new, pdrsPerHourVec s' = pdrsPerHourVec s ++ new
              /\ length new = ticks evs /\ samples_bounded new.
Proof.
  revert s. induction evs as [|ev evs IH]; intros s Hrun; simpl in Hrun.
  - injection Hrun as <-. exists []. rewrite app_nil_r.
    split; [reflexivity|]. split; [reflexivity|constructor].
  - destruct (handle cfg ev s) as [s1|] eqn:Hev; [|discriminate Hrun].
    simpl in Hrun.
    destruct (handle_samples cfg ev s s1 Hev) as (new1 & H1 & Hlen1 & Hb1).
    destruct (IH s1 Hrun) as (new2 & H2 & Hlen2 & Hb2).
    exists (new1 ++ new2). rewrite H2, H1, <- app_assoc.
    split; [reflexivity|]. split.
    + rewrite length_app, Hlen1, Hlen2. unfold ticks. simpl.
      destruct (is_tick ev); simpl; lia.
    + by apply Forall_app.
Qed.

Lemma run_samples_appended_witness :
  exists s' new,
    run default_config busy_trace three_devices = Some s'
    /\ pdrsPerHourVec s' = pdrsPerHourVec three_devices ++ new
    /\ length new = ticks busy_trace /\ samples_bounded new.
Proof.
  destruct (run default_config busy_trace three_devices) as [s'|] eqn:E;
    [|vm_compute in E; discriminate E].
  destruct (run_samples_appended default_config busy_trace three_devices s' E)
    as (new & Hnew).
  exists s', new. split; [reflexivity | exact Hnew].
Defined.

(** ** Acknowledgements *)



(** X7: [RequiredTransmissionsCallback] changes nothing for a null packet,
    for a packet without a record and for a failed transmission; in every
    case it leaves all counters other than [nRecAck] and [nReqTx], all
    sums, all vectors ([delayPerApp] and the hourly samples included), the
    devices, and the id, sender, send time, delay and status of every
    record as they were, and it neither adds nor removes a record. *)
Theorem ack_changes_only_ack_data (now reqTx : Z) (success : bool)
    (firstAttempt : Z) (packet : option Packet) (s : State) :
  (packet = None \/ success = false
   \/ (exists pkt, packet = Some pkt /\ pktInfoMap s !! pktIdOf pkt = None) ->
   RequiredTransmissionsCallback now reqTx success firstAttempt packet s = s)
  /\ (forall x, x <> nRecAck -> x <> nReqTx ->
      ints (RequiredTransmissionsCallback now reqTx success firstAttempt packet s) x
      = ints s x)
  /\ dbls (RequiredTransmissionsCallback now reqTx success firstAttempt packet s)
     = dbls s
  /\ ivecs (RequiredTransmissionsCallback now reqTx success firstAttempt packet s)
     = ivecs s
  /\ idvecs (RequiredTransmissionsCallback now reqTx success firstAttempt packet s)
     = idvecs s
  /\ pdrsPerHourVec
       (RequiredTransmissionsCallback now reqTx success firstAttempt packet s)
     = pdrsPerHourVec s
  /\ delayPerApp
       (RequiredTransmissionsCallback now reqTx success firstAttempt packet s)
     = delayPerApp s
  /\ endDevices
       (RequiredTransmissionsCallback now reqTx success firstAttempt packet s)
     = endDevices s
  /\ (forall id,
        match pktInfoMap
                (RequiredTransmissionsCallback now reqTx success firstAttempt packet s)
              !! id, pktInfoMap s !! id with
        | Some info', Some info =>
            m_pktId info' = m_pktId info /\ m_edId info' = m_edId info
            /\ m_txTime info' = m_txTime info /\ m_delay info' = m_delay info
            /\ m_status info' = m_status info
        | None, None => True
        | _, _ => False
        end).
Proof.
  split.
  { intros [-> | [-> | (pkt & -> & Hlook)]]; unfold RequiredTransmissionsCallback.
    - done.
    - destruct packet as [pkt|]; [|done].
      by destruct (pktInfoMap s !! pktIdOf pkt).
    - by rewrite Hlook. }
  unfold RequiredTransmissionsCallback.
  destruct packet as [pkt|].
  2: { repeat split. intros id. by destruct (pktInfoMap s !! id). }
  destruct (pktInfoMap s !! pktIdOf pkt) as [info|] eqn:Hlook.
  2: { repeat split. intros id. by destruct (pktInfoMap s !! id). }
  destruct (success && _).
  2: { repeat split. intros id. by destruct (pktInfoMap s !! id). }
  split.
  { intros x H1 H2. simpl. rewrite decide_False by done. by rewrite decide_False. }
  repeat split. intros id. simpl.
  destruct (decide (id = pktIdOf pkt)) as [->|Hne].
  - by rewrite lookup_insert_eq, Hlook.
  - rewrite lookup_insert_ne by done. by destruct (pktInfoMap s !! id).
Qed.

Lemma ack_changes_only_ack_data_witness :
  RequiredTransmissionsCallback 900000000 2 true 0 (Some pcc_packet) one_sent
  = one_sent
  /\ RequiredTransmissionsCallback 900000000 2 false 0 (Some imr_packet) one_sent
     = one_sent.
Proof.
  split.
  - apply (proj1 (ack_changes_only_ack_data 900000000 2 true 0 (Some pcc_packet)
                    one_sent)).
    right. right. exists pcc_packet. split; reflexivity.
  - apply (proj1 (ack_changes_only_ack_data 900000000 2 false 0 (Some imr_packet)
                    one_sent)).
    right. left. reflexivity.
Defined.

(** An acknowledgement with 2 attempts, then a second one with 3: counted
    once. *)
Example ack_twice :
  map (ints (RequiredTransmissionsCallback 950000000 3 true 0 (Some imr_packet)
               (RequiredTransmissionsCallback 900000000 2 true 0 (Some imr_packet)
                  one_sent)))
      [nRecAck; nReqTx]
  = [1; 2].
Proof. vm_compute. reflexivity. Qed.

(** ** Bounds of the vector accesses *)

(** X8: a run from program start never indexes a vector out of range:
    whenever every packet of the events carries a spreading factor from
    SF7 to SF12 and the scheme is not "asfa", the run has a result. *)
Theorem run_from_start_in_bounds (cfg : Config) (devs : list Z) (evs : list Event) :
  Forall valid_event evs -> sfa cfg <> "asfa" ->
  is_Some (run cfg evs (initial_state devs)).
Proof.
  intros Hvalid Hsfa. apply run_completes; [apply allocated_initial|done..].
Qed.

Lemma run_from_start_in_bounds_witness :
  is_Some (run default_config busy_trace (initial_state [0; 0; 0])).
Proof.
  apply (run_from_start_in_bounds default_config [0; 0; 0] busy_trace).
  - unfold busy_trace, valid_event, valid_sf. repeat constructor; simpl; lia.
  - discriminate.
Defined.

(** X9: on a state whose tables have their six buckets, and outside
    "asfa", a loss callback has a defined result exactly when the packet's
    spreading factor (a [uint8_t]) is one of SF7 to SF12; any other value
    indexes the table out of range. *)
Theorem Loss_defined_iff_valid_sf (cfg : Config) (c : LossCause) (pkt : Packet)
    (gwId : Z) (s : State) :
  allocated s -> sfa cfg <> "asfa" ->
  0 <= GetSpreadingFactor pkt < 256 ->
  (is_Some (Loss cfg c pkt gwId s) <-> valid_sf pkt).
Proof.
  intros Halloc Hsfa Hbyte. split.
  - intros [s' Hs'].
    apply Loss_Some in Hs' as (n & Hn & _).
    apply at_index_Some in Hn as [Hrange _].
    destruct Halloc as [Hvec _]. rewrite Hvec in Hrange.
    unfold GetIndexBasedOnSf in Hrange.
    rewrite wrap32_small in Hrange by lia.
    unfold valid_sf. lia.
  - intros Hsf. apply Loss_is_Some; [done..|]. by intros _ ?.
Qed.

Lemma Loss_defined_iff_valid_sf_witness :
  (is_Some (Loss default_config ByUnder pcc_packet 0 three_devices)
   <-> valid_sf pcc_packet)
  /\ (is_Some (Loss default_config ByUnder
                 {| GetUid := 3; GetReceivePower := (-100)%float;
                    GetSpreadingFactor := 6; GetMsgType := IMR |} 0 three_devices)
      <-> valid_sf {| GetUid := 3; GetReceivePower := (-100)%float;
                      GetSpreadingFactor := 6; GetMsgType := IMR |}).
Proof.
  split.
  - apply (Loss_defined_iff_valid_sf default_config ByUnder pcc_packet 0 three_devices).
    + apply allocated_initial.
    + discriminate.
    + simpl. lia.
  - apply (Loss_defined_iff_valid_sf default_config ByUnder _ 0 three_devices).
    + apply allocated_initial.
    + discriminate.
    + simpl. lia.
Defined.

(** X10: [ClearData] leaves the tables without buckets and the counters as
    they were.  Afterwards every loss callback indexes an empty table and has
    no defined result, a delivery finds no record and changes nothing, and
    a packet that was sent before is taken for a new one: [nSent] is
    incremented again. *)
Theorem callbacks_after_ClearData (cfg : Config) (c : LossCause) (now : Z)
    (pkt : Packet) (gwId edId : Z) (s : State) :
  Loss cfg c pkt gwId (ClearData s) = None
  /\ Ok now pkt gwId (ClearData s) = Some (ClearData s)
  /\ ints (Sent now pkt edId (ClearData s)) nSent = Int.incr (ints s nSent)
  /\ ints (Sent now pkt edId (ClearData s)) nRetx = ints s nRetx.
Proof.
  split; [|split; [|split]].
  - destruct (Loss cfg c pkt gwId (ClearData s)) as [s'|] eqn:E; [|done].
    apply Loss_Some in E as (n & Hn & _).
    apply at_index_Some in Hn as [_ Hn].
    by destruct c.
  - apply Ok_untracked. simpl. apply lookup_empty.
  - unfold Sent. replace (pktInfoMap (ClearData s) !! pktIdOf pkt) with
      (@None PacketInfo) by (simpl; by rewrite lookup_empty).
    by destruct (GetMsgType pkt).
  - unfold Sent. replace (pktInfoMap (ClearData s) !! pktIdOf pkt) with
      (@None PacketInfo) by (simpl; by rewrite lookup_empty).
    by destruct (GetMsgType pkt).
Qed.

(** ** The data rate under "asfa" *)

(** X11: under "asfa", an interference loss of a tracked packet with a
    spreading factor from SF7 to SF12 sets the data rate of the sender's
    MAC to one step below the data rate 12 - SF of the lost packet, and to
    0 at SF12; the sender is the device recorded at the first send, and no
    other device is touched. *)
Theorem Interf_asfa_lowers_data_rate (cfg : Config) (pkt : Packet) (gwId : Z)
    (s : State) (info : PacketInfo) :
  sfa cfg = "asfa" ->
  valid_sf pkt -> allocated s ->
  pktInfoMap s !! pktIdOf pkt = Some info ->
  0 <= m_edId info < Z.of_nat (length (endDevices s)) ->
  Z.of_nat (length (endDevices s)) <= 2 ^ 32 ->
  exists s', Interf cfg pkt gwId s = Some s'
    /\ endDevices s'
       = <[Z.to_nat (m_edId info) := Z.max 0 (11 - GetSpreadingFactor pkt)]>
           (endDevices s).
Proof.
  intros Hsfa Hsf [Hvec _] Hlook Hed Hsize.
  pose proof (index_of_valid_sf pkt Hsf) as Hidx.
  unfold Interf.
  match goal with |- context [vec_incr ?v ?i ?st] =>
    destruct (vec_incr_in_range v i st) as [s1 E1] end.
  { simpl. rewrite Hvec. unfold GetIndexBasedOnSf in Hidx. lia. }
  rewrite E1. cbn [mbind option_bind].
  apply vec_incr_Some in E1 as (n & _ & ->).
  rewrite decide_True by done.
  unfold SetDataRate, Interf_node_index, GetEdId. simpl.
  rewrite Hlook.
  assert (Int.to_uint32 (m_edId info) = m_edId info) as ->
    by (unfold Int.to_uint32; apply Z.mod_small; lia).
  destruct (at_index_in_range (endDevices s) (m_edId info) Hed) as [d ->].
  eexists. split; [reflexivity|]. simpl. f_equal.
  unfold valid_sf in Hsf. unfold Int.to_uint8.
  rewrite (Z.mod_small (12 - GetSpreadingFactor pkt)) by lia.
  case_decide; rewrite Z.mod_small; lia.
Qed.

Lemma Interf_asfa_lowers_data_rate_witness :
  exists s', Interf asfa_config imr_packet 0 (Sent 0 imr_packet 2 three_devices)
             = Some s'
    /\ endDevices s'
       = <[Z.to_nat 2 := Z.max 0 (11 - GetSpreadingFactor imr_packet)]>
           (endDevices (Sent 0 imr_packet 2 three_devices)).
Proof.
  apply (Interf_asfa_lowers_data_rate asfa_config imr_packet 0
           (Sent 0 imr_packet 2 three_devices) (mkPacketInfo 1 2 0%float)).
  - reflexivity.
  - unfold valid_sf. simpl. lia.
  - apply allocated_Sent, allocated_initial.
  - reflexivity.
  - vm_compute. split; [discriminate | reflexivity].
  - vm_compute. discriminate.
Defined.

(** ** Sums of a first delivery *)

(** X12: the first delivery of a tracked packet adds its delay to
    [sumDelay] and its receive power and SNR to [sumRssi] and [sumSnr]
    whatever the classification, also when the packet is late and counted
    as expired; the record gets that delay and a status [OK] or
    [EXPIRED]. *)
Theorem Ok_first_delivery_sums (now : Z) (pkt : Packet) (gwId : Z)
    (s s' : State) (info : PacketInfo) :
  pktInfoMap s !! pktIdOf pkt = Some info ->
  ~ delivered info ->
  Ok now pkt gwId s = Some s' ->
  dbls s' sumDelay = (dbls s sumDelay + delay_at now info)%float
  /\ dbls s' sumRssi = (dbls s sumRssi + GetReceivePower pkt)%float
  /\ dbls s' sumSnr = (dbls s sumSnr + RxPowerToSNR (GetReceivePower pkt))%float
  /\ (exists info', pktInfoMap s' !! pktIdOf pkt = Some info'
        /\ m_delay info' = delay_at now info
        /\ (m_status info' = OK \/ m_status info' = EXPIRED)
        /\ m_txTime info' = m_txTime info /\ m_edId info' = m_edId info).
Proof.
  intros Hlook Hnew. first_delivery Hlook Hnew. unfold delay_at.
  destruct (classify _ _); intros Hok.
  - apply delayPerApp_add_Some in Hok as (x & _ & ->).
    repeat split. eexists. simpl. rewrite lookup_insert_eq.
    split; [reflexivity|]. simpl. by eauto.
  - apply delayPerApp_add_Some in Hok as (x & _ & ->).
    repeat split. eexists. simpl. rewrite lookup_insert_eq.
    split; [reflexivity|]. simpl. by eauto.
  - apply vec_incr_Some in Hok as (n & _ & ->).
    repeat split. eexists. simpl. rewrite lookup_insert_eq.
    split; [reflexivity|]. simpl. by eauto.
Qed.

Lemma Ok_first_delivery_sums_witness :
  exists s',
    Ok 1001000000 pcc_packet 0 (Sent 0 pcc_packet 1 three_devices) = Some s'
    /\ dbls s' sumDelay
       = (dbls (Sent 0 pcc_packet 1 three_devices) sumDelay
          + delay_at 1001000000 (mkPacketInfo 2 1 0%float))%float
    /\ dbls s' sumRssi
       = (dbls (Sent 0 pcc_packet 1 three_devices) sumRssi
          + GetReceivePower pcc_packet)%float.
Proof.
  destruct (Ok 1001000000 pcc_packet 0 (Sent 0 pcc_packet 1 three_devices))
    as [s'|] eqn:E; [|vm_compute in E; discriminate E].
  exists s'. split; [reflexivity|].
  destruct (Ok_first_delivery_sums 1001000000 pcc_packet 0
              (Sent 0 pcc_packet 1 three_devices) s' (mkPacketInfo 2 1 0%float)
              eq_refl (new_record_not_delivered 2 1 0%float) E)
    as (Hdelay & Hrssi & _).
  split; [exact Hdelay | exact Hrssi].
Defined.

(** A PCC packet delivered after 1001 ms: expired, not received, yet its
    delay is in [sumDelay]. *)
Example late_delivery_in_sums :
  (s ← Ok 1001000000 pcc_packet 0 (Sent 0 pcc_packet 1 three_devices);
   Some (ints s nRec, ints s nExpired, dbls s sumDelay, dbls s sumRssi))
  = Some (0, 1, 1001%float, (-120)%float).
Proof. vm_compute. reflexivity. Qed.

(** ** The recorded sender *)

Lemma handle_keeps_sender cfg ev s s' id info :
  handle cfg ev s = Some s' ->
  pktInfoMap s !! id = Some info ->
  exists info', pktInfoMap s' !! id = Some info' /\ m_edId info' = m_edId info.
Proof.
  intros Hev Hlook.
  assert (forall k rec old, pktInfoMap s !! k = Some old ->
            m_edId rec = m_edId old ->
            exists info', <[k := rec]> (pktInfoMap s) !! id = Some info'
                          /\ m_edId info' = m_edId info) as Hupd.
  { intros k rec old Hold Hrec. destruct (decide (k = id)) as [->|Hne].
    - rewrite lookup_insert_eq. exists rec. split; [done|]. congruence.
    - rewrite lookup_insert_ne by done. eauto. }
  assert (forall k rec, pktInfoMap s !! k = None ->
            exists info', <[k := rec]> (pktInfoMap s) !! id = Some info'
                          /\ m_edId info' = m_edId info) as Hnew.
  { intros k rec Hk. rewrite lookup_insert_ne by congruence. eauto. }
  handle_cases Hev; simpl; eauto.
Qed.

(** X13: [GetEdId] returns -1 for a packet without a record; after the
    first send event of a packet it returns the sender of that event (as
    [int]), and from then on no callback changes it: not a retransmission
    by another device, a delivery, a loss or an acknowledgement. *)
Theorem GetEdId_first_sender (cfg : Config) (now : Z) (pkt : Packet) (edId : Z)
    (s : State) :
  (pktInfoMap s !! pktIdOf pkt = None ->
   GetEdId pkt s = -1
   /\ GetEdId pkt (Sent now pkt edId s) = Int.wrap32 edId)
  /\ (forall ev s' info,
        pktInfoMap s !! pktIdOf pkt = Some info ->
        handle cfg ev s = Some s' ->
        GetEdId pkt s = m_edId info /\ GetEdId pkt s' = m_edId info).
Proof.
  split.
  - intros Hnew. unfold GetEdId, Sent. rewrite Hnew. split; [done|].
    destruct (GetMsgType pkt); simpl; by rewrite lookup_insert_eq.
  - intros ev s' info Hlook Hev. unfold GetEdId. rewrite Hlook. split; [done|].
    destruct (handle_keeps_sender cfg ev s s' _ info Hev Hlook) as (info' & -> & H).
    exact H.
Qed.

Lemma GetEdId_first_sender_witness :
  (GetEdId imr_packet three_devices = -1
   /\ GetEdId imr_packet (Sent 0 imr_packet 2 three_devices) = Int.wrap32 2)
  /\ GetEdId imr_packet (Sent 5 imr_packet 1 (Sent 0 imr_packet 2 three_devices))
     = 2.
Proof.
  split.
  - apply (proj1 (GetEdId_first_sender default_config 0 imr_packet 2 three_devices)).
    reflexivity.
  - apply (proj2 (GetEdId_first_sender default_config 0 imr_packet 2
                    (Sent 0 imr_packet 2 three_devices))
             (EvSent 5 imr_packet 1) _ (mkPacketInfo 1 2 0%float));
      reflexivity.
Defined.

(** ** Packet ids are uids modulo 2^32 *)

(** X14: the ledger is keyed by the uid cast to [int], so two packets whose
    uids differ by a multiple of 2^32 share one record: after the first was
    sent, a send event of the second is counted as a retransmission
    ([nRetx]) and adds no record and no sent packet. *)
Theorem uid_collision_is_retransmission (p1 p2 : Packet) (k now1 now2 ed1 ed2 : Z)
    (s : State) :
  GetUid p2 = GetUid p1 + k * 2 ^ 32 ->
  pktIdOf p2 = pktIdOf p1
  /\ Sent now2 p2 ed2 (Sent now1 p1 ed1 s) = inc nRetx (Sent now1 p1 ed1 s).
Proof.
  intros Huid.
  assert (pktIdOf p2 = pktIdOf p1) as Hid
    by (unfold pktIdOf; rewrite Huid; apply wrap32_shift).
  split; [exact Hid|].
  assert (is_Some (pktInfoMap (Sent now1 p1 ed1 s) !! pktIdOf p1)) as [rec Hrec].
  { unfold Sent. destruct (pktInfoMap s !! pktIdOf p1) as [old|] eqn:E.
    - simpl. rewrite E. eauto.
    - destruct (GetMsgType p1); simpl; rewrite lookup_insert_eq; eauto. }
  unfold Sent at 1. by rewrite Hid, Hrec.
Qed.

Lemma uid_collision_is_retransmission_witness :
  pktIdOf colliding_packet = pktIdOf imr_packet
  /\ Sent 9 colliding_packet 1 (Sent 0 imr_packet 0 three_devices)
     = inc nRetx (Sent 0 imr_packet 0 three_devices).
Proof.
  apply (uid_collision_is_retransmission imr_packet colliding_packet 1 0 9 0 1
           three_devices).
  reflexivity.
Defined.

(** ** The energy total *)

Lemma energy_fold es :
  forall s,
    let s' := fold_left
                (fun s e => match e with
                            | Some x => add_dbl consumption x s
                            | None => s
                            end) es s in
    dbls s' consumption
      = fold_left (fun acc x => (acc + x)%float) (omap id es) (dbls s consumption)
    /\ (forall x, x <> consumption -> dbls s' x = dbls s x)
    /\ ints s' = ints s /\ pktInfoMap s' = pktInfoMap s
    /\ ivecs s' = ivecs s /\ idvecs s' = idvecs s
    /\ pdrsPerHourVec s' = pdrsPerHourVec s /\ delayPerApp s' = delayPerApp s
    /\ endDevices s' = endDevices s.
Proof.
  induction es as [|[x|] es IH]; intros s; simpl.
  - by repeat split.
  - destruct (IH (add_dbl consumption x s))
      as (Hc & Hd & Hi & Hm & Hv & Hids & Hp & Hda & He).
    split; [exact Hc|]. split; [|by repeat split].
    intros y Hy. rewrite (Hd y Hy). simpl. by rewrite decide_False.
  - apply IH.
Qed.

(** X15: [CalcEnergyConsumption] sets [consumption] to the sum, taken from
    zero in the order of the container, of the energies of the devices
    that have an energy model; devices without one are skipped, the value
    [consumption] had before does not matter, and nothing else changes. *)
Theorem CalcEnergyConsumption_sums_present (energies : list (option float))
    (s : State) :
  dbls (CalcEnergyConsumption energies s) consumption
    = fold_left (fun acc x => (acc + x)%float) (omap id energies) 0%float
  /\ (forall x, x <> consumption ->
      dbls (CalcEnergyConsumption energies s) x = dbls s x)
  /\ ints (CalcEnergyConsumption energies s) = ints s
  /\ pktInfoMap (CalcEnergyConsumption energies s) = pktInfoMap s
  /\ ivecs (CalcEnergyConsumption energies s) = ivecs s
  /\ idvecs (CalcEnergyConsumption energies s) = idvecs s
  /\ pdrsPerHourVec (CalcEnergyConsumption energies s) = pdrsPerHourVec s
  /\ delayPerApp (CalcEnergyConsumption energies s) = delayPerApp s
  /\ endDevices (CalcEnergyConsumption energies s) = endDevices s.
Proof.
  unfold CalcEnergyConsumption.
  destruct (energy_fold energies (set_dbl consumption 0%float s))
    as (Hc & Hd & Hrest).
  split; [exact Hc|]. split; [|exact Hrest].
  intros x Hx. rewrite (Hd x Hx). simpl. by rewrite decide_False.
Qed.

(** Three devices, the second without an energy source, called twice. *)
Example energy_of_three :
  dbls (CalcEnergyConsumption [Some 2%float; None; Some 1.5%float]
          (CalcEnergyConsumption [Some 7%float] three_devices)) consumption
  = 3.5%float.
Proof. vm_compute. reflexivity. Qed.

(** ** The distribution of spreading factors and powers *)

Lemma count_device_Some txPower s tp i s' tp' :
  count_device txPower (s, tp) i = Some (s', tp') ->
  exists dr n,
    at_index (endDevices s) (Z.of_nat i) = Some dr
    /\ ivecs s sfDist !! Z.to_nat (Int.wrap32 (5 - dr)) = Some n
    /\ s' = set_ivec sfDist
              (<[Z.to_nat (Int.wrap32 (5 - dr)) := Int.incr n]> (ivecs s sfDist)) s
    /\ ((0 < txPower i
         /\ exists m, tp !! Z.to_nat (Int.wrap32 (txPower i - 1)) = Some m
              /\ tp' = <[Z.to_nat (Int.wrap32 (txPower i - 1)) := Int.incr m]> tp)
        \/ (txPower i <= 0 /\ tp' = tp)).
Proof.
  unfold count_device. simpl.
  destruct (at_index (endDevices s) (Z.of_nat i)) as [dr|]; [|discriminate].
  simpl.
  destruct (vec_incr sfDist (Int.wrap32 (5 - dr)) s) as [s1|] eqn:E; [|discriminate].
  apply vec_incr_Some in E as (n & Hn & ->). apply at_index_Some in Hn as [_ Hn].
  simpl. case_decide as Hp.
  - destruct (at_index tp (Int.wrap32 (txPower i - 1))) as [m|] eqn:Em;
      [|discriminate].
    apply at_index_Some in Em as [_ Em]. simpl. intros [= <- <-].
    exists dr, n. split; [done|]. split; [done|]. split; [done|].
    left. split; [done|]. by exists m.
  - intros [= <- <-]. exists dr, n. split; [done|]. split; [done|].
    split; [done|]. right. split; [lia|done].
Qed.

Lemma count_devices_totals txPower slots :
  forall s tp s' tp',
    count_devices txPower slots (s, tp) = Some (s', tp') ->
    Int.wrap32 (total (ivecs s' sfDist))
      = Int.wrap32 (total (ivecs s sfDist) + Z.of_nat (length slots))
    /\ Int.wrap32 (total tp')
       = Int.wrap32 (total tp
                     + Z.of_nat (length (filter (fun i => 0 < txPower i) slots)))
    /\ length (ivecs s' sfDist) = length (ivecs s sfDist)
    /\ length tp' = length tp
    /\ ints s' = ints s /\ dbls s' = dbls s /\ pktInfoMap s' = pktInfoMap s
    /\ (forall v, v <> sfDist -> ivecs s' v = ivecs s v)
    /\ idvecs s' = idvecs s /\ endDevices s' = endDevices s
    /\ pdrsPerHourVec s' = pdrsPerHourVec s /\ delayPerApp s' = delayPerApp s.
Proof.
  induction slots as [|i slots IH]; intros s tp s' tp' H; simpl in H.
  - injection H as <- <-. simpl. rewrite !Z.add_0_r. by repeat split.
  - destruct (count_device txPower (s, tp) i) as [[s1 tp1]|] eqn:E;
      [|discriminate H].
    simpl in H.
    destruct (IH _ _ _ _ H)
      as (Hsf & Htp & Hl1 & Hl2 & Hi & Hd & Hm & Hv & Hids & He & Hpd & Hda).
    apply count_device_Some in E as (dr & n & _ & Hn & -> & Hpow).
    simpl in *. rewrite length_insert in Hl1.
    rewrite (total_insert _ _ _ _ Hn) in Hsf.
    split; [rewrite Hsf, Nat2Z.inj_succ; wrap_arith|].
    split.
    { rewrite filter_cons. destruct Hpow as [[Hp (m & Hm' & ->)]|[Hp ->]].
      - rewrite decide_True by done. rewrite (total_insert _ _ _ _ Hm') in Htp.
        rewrite Htp. simpl length. rewrite Nat2Z.inj_succ. wrap_arith.
      - rewrite decide_False by lia. exact Htp. }
    split; [exact Hl1|].
    split.
    { destruct Hpow as [[_ (m & _ & ->)]|[_ ->]]; [|done].
      by rewrite length_insert in Hl2. }
    repeat split; try done.
    intros v Hne. rewrite (Hv v Hne). by rewrite decide_False.
Qed.

Lemma count_devices_buckets txPower slots :
  forall s tp s' tp',
    count_devices txPower slots (s, tp) = Some (s', tp') ->
    (forall k, ivecs s' sfDist !! k
               = Nat.iter (sf_hits (endDevices s) slots k) Int.incr
                   <$> ivecs s sfDist !! k)
    /\ (forall k, tp' !! k = Nat.iter (tp_hits txPower slots k) Int.incr <$> tp !! k).
Proof.
  induction slots as [|i slots IH]; intros s tp s' tp' H; simpl in H.
  - injection H as <- <-. split; intros k; simpl.
    + by destruct (ivecs s sfDist !! k).
    + by destruct (tp !! k).
  - destruct (count_device txPower (s, tp) i) as [[s1 tp1]|] eqn:E;
      [|discriminate H].
    simpl in H. destruct (IH _ _ _ _ H) as [Hsf Htp]. clear IH H.
    apply count_device_Some in E as (dr & n & Hdr & Hn & -> & Hpow).
    simpl in Hsf. split; intros k.
    + rewrite Hsf. unfold sf_hits at 2. rewrite filter_cons, Hdr. simpl.
      destruct (decide (Some (Z.to_nat (Int.wrap32 (5 - dr))) = Some k))
        as [[= <-]|Hne].
      * rewrite list_lookup_insert_eq by (by eapply lookup_lt_Some).
        rewrite Hn. unfold sf_hits.
        cbn [fmap option_fmap option_map length].
        by rewrite Nat.iter_succ_r.
      * rewrite list_lookup_insert_ne by congruence. reflexivity.
    + rewrite Htp. unfold tp_hits at 2. rewrite filter_cons.
      destruct Hpow as [[Hp (m & Hm & ->)]|[Hp ->]].
      * destruct (decide (Z.to_nat (Int.wrap32 (txPower i - 1)) = k)) as [<-|Hne].
        -- rewrite decide_True by done.
           rewrite list_lookup_insert_eq by (by eapply lookup_lt_Some).
           rewrite Hm. unfold tp_hits.
           cbn [fmap option_fmap option_map length].
           by rewrite Nat.iter_succ_r.
        -- rewrite decide_False by (intros [_ ?]; done).
           rewrite list_lookup_insert_ne by done. reflexivity.
      * rewrite decide_False by (intros [? _]; lia). reflexivity.
Qed.

(** X16: the counting loop of [PrintSFAndTP] counts every device once, in
    the bucket of its data rate.  When it completes over the slots 0..n-1,
    bucket [k] of [sfDist] has been incremented once for each device whose
    data rate [dr] has [5 - dr = k], and bucket [k] of the power table
    (14 buckets, from zero) once for each device whose positive power [p]
    has [p - 1 = k]; so [sfDist] has grown by n in total and the power
    table holds the number of devices with a positive power.  Nothing but
    [sfDist] is changed in the state. *)
Theorem count_devices_counts_each_once (txPower : nat -> Z) (n : nat)
    (s s' : State) (tp : list Z) :
  count_devices txPower (seq 0 n) (s, replicate 14 0) = Some (s', tp) ->
  (forall k, ivecs s' sfDist !! k
             = Nat.iter (sf_hits (endDevices s) (seq 0 n) k) Int.incr
                 <$> ivecs s sfDist !! k)
  /\ (forall k, tp !! k
                = Nat.iter (tp_hits txPower (seq 0 n) k) Int.incr
                    <$> replicate 14 0 !! k)
  /\ Int.wrap32 (total (ivecs s' sfDist))
     = Int.wrap32 (total (ivecs s sfDist) + Z.of_nat n)
  /\ Int.wrap32 (total tp)
     = Int.wrap32 (Z.of_nat (length (filter (fun i => 0 < txPower i) (seq 0 n))))
  /\ length tp = 14%nat
  /\ ints s' = ints s /\ dbls s' = dbls s /\ pktInfoMap s' = pktInfoMap s
  /\ (forall v, v <> sfDist -> ivecs s' v = ivecs s v)
  /\ idvecs s' = idvecs s
  /\ pdrsPerHourVec s' = pdrsPerHourVec s
  /\ delayPerApp s' = delayPerApp s
  /\ endDevices s' = endDevices s.
Proof.
  intros H.
  destruct (count_devices_buckets _ _ _ _ _ _ H) as [Hb1 Hb2].
  destruct (count_devices_totals _ _ _ _ _ _ H)
    as (Hsf & Htp & _ & Hl & Hi & Hd & Hm & Hv & Hids & He & Hpd & Hda).
  rewrite length_seq in Hsf. rewrite total_replicate_zero in Htp.
  by repeat split.
Qed.

Lemma count_devices_counts_each_once_witness :
  exists s' tp,
    count_devices (fun i => Z.of_nat i) (seq 0 3)
      (set_endDevices [5; 0; 3] three_devices, replicate 14 0) = Some (s', tp)
    /\ (forall k, ivecs s' sfDist !! k
                  = Nat.iter (sf_hits [5; 0; 3] (seq 0 3) k) Int.incr
                      <$> replicate 6 0 !! k)
    /\ Int.wrap32 (total (ivecs s' sfDist))
       = Int.wrap32 (total (ivecs (set_endDevices [5; 0; 3] three_devices) sfDist)
                     + Z.of_nat 3)
    /\ Int.wrap32 (total tp)
       = Int.wrap32
           (Z.of_nat (length (filter (fun i => 0 < Z.of_nat i) (seq 0 3)))).
Proof.
  destruct (count_devices (fun i => Z.of_nat i) (seq 0 3)
              (set_endDevices [5; 0; 3] three_devices, replicate 14 0))
    as [[s' tp]|] eqn:E; [|vm_compute in E; discriminate E].
  exists s', tp. split; [reflexivity|].
  destruct (count_devices_counts_each_once (fun i => Z.of_nat i) 3
              (set_endDevices [5; 0; 3] three_devices) s' tp E)
    as (Hb & _ & Hsf & Htp & _).
  split; [exact Hb|]. split; [exact Hsf | exact Htp].
Defined.

(** X17: [PrintSFAndTP] can be called once.  When it has a result, its
    line is the share (in percent of [nDevices]) of each bucket of [sfDist]
    followed by the share of each of the 14 buckets of the power table,
    the buckets being those the counting loop leaves: each incremented once
    per device that falls in it.  The state it leaves has [sfDist] cleared
    and everything else as before; a second call with at least one device
    then indexes the empty [sfDist] and has no defined result. *)
Theorem PrintSFAndTP_once (cfg : Config) (txPower txPower' : nat -> Z)
    (s s' : State) (row : list float) :
  PrintSFAndTP cfg txPower s = Some (row, s') ->
  (exists buckets tp,
     row = map (share_of_devices cfg) buckets ++ map (share_of_devices cfg) tp
     /\ length buckets = length (ivecs s sfDist)
     /\ length tp = 14%nat
     /\ (forall k, buckets !! k
                   = Nat.iter (sf_hits (endDevices s)
                                 (seq 0 (Z.to_nat (nDevices cfg))) k) Int.incr
                       <$> ivecs s sfDist !! k)
     /\ (forall k, tp !! k
                   = Nat.iter (tp_hits txPower
                                 (seq 0 (Z.to_nat (nDevices cfg))) k) Int.incr
                       <$> replicate 14 0 !! k))
  /\ length row = (length (ivecs s sfDist) + 14)%nat
  /\ ivecs s' sfDist = []
  /\ (forall v, v <> sfDist -> ivecs s' v = ivecs s v)
  /\ ints s' = ints s /\ dbls s' = dbls s /\ pktInfoMap s' = pktInfoMap s
  /\ idvecs s' = idvecs s
  /\ pdrsPerHourVec s' = pdrsPerHourVec s
  /\ delayPerApp s' = delayPerApp s
  /\ endDevices s' = endDevices s
  /\ (0 < nDevices cfg -> PrintSFAndTP cfg txPower' s' = None).
Proof.
  unfold PrintSFAndTP.
  destruct (count_devices txPower (seq 0 (Z.to_nat (nDevices cfg)))
              (s, replicate 14 0)) as [[s1 tp]|] eqn:E; [|discriminate].
  simpl. intros [= <- <-].
  destruct (count_devices_buckets _ _ _ _ _ _ E) as [Hb1 Hb2].
  destruct (count_devices_totals _ _ _ _ _ _ E)
    as (_ & _ & Hl1 & Hl2 & Hi & Hd & Hm & Hv & Hids & He & Hpd & Hda).
  rewrite length_replicate in Hl2.
  split.
  { exists (ivecs s1 sfDist), tp. by repeat split. }
  split.
  { by rewrite length_app, !length_map, Hl1, Hl2. }
  split; [reflexivity|].
  split; [intros v Hne; simpl; rewrite decide_False by done; by apply Hv|].
  do 7 (split; [assumption|]).
  intros Hpos.
  destruct (Z.to_nat (nDevices cfg)) as [|n] eqn:En; [lia|].
  assert (forall i, vec_incr sfDist i (set_ivec sfDist [] s1) = None) as Hempty.
  { intros i. unfold vec_incr, at_index. simpl. case_decide; [lia|done]. }
  simpl. unfold count_device at 1. simpl.
  destruct (at_index (endDevices s1) (Z.of_nat 0)) as [dr|]; [|done].
  simpl. by rewrite Hempty.
Qed.

Lemma PrintSFAndTP_once_witness :
  exists row s',
    PrintSFAndTP asfa_config (fun i => Z.of_nat i)
      (set_endDevices [5; 0; 3] three_devices) = Some (row, s')
    /\ length row = 20%nat
    /\ ivecs s' sfDist = []
    /\ PrintSFAndTP asfa_config (fun i => Z.of_nat i) s' = None.
Proof.
  destruct (PrintSFAndTP asfa_config (fun i => Z.of_nat i)
              (set_endDevices [5; 0; 3] three_devices))
    as [[row s']|] eqn:E; [|vm_compute in E; discriminate E].
  exists row, s'. split; [reflexivity|].
  destruct (PrintSFAndTP_once asfa_config (fun i => Z.of_nat i)
              (fun i => Z.of_nat i) _ s' row E)
    as (_ & Hlen & Hsf & Hrest).
  split; [exact Hlen|]. split; [exact Hsf|].
  apply Hrest. reflexivity.
Defined.

(** Three devices with data rates 5, 0 and 3 and powers 0, 1 and 2: one
    device each at SF7, SF9 and SF12, one each at powers 1 and 2 (shares in
    percent of three devices). *)
Example distribution_of_three :
  fst <$> PrintSFAndTP asfa_config (fun i => Z.of_nat i)
            (set_endDevices [5; 0; 3] three_devices)
  = Some (map (share_of_devices asfa_config)
            ([1; 0; 1; 0; 0; 1] ++ [1; 1; 0; 0; 0; 0; 0; 0; 0; 0; 0; 0; 0; 0])).
Proof. vm_compute. reflexivity. Qed.

(** ** Send events and vector sizes over a run *)

Lemma handle_send_count cfg ev s s' :
  handle cfg ev s = Some s' ->
  Int.wrap32 (ints s' nSent + ints s' nRetx)
  = Int.wrap32 (ints s nSent + ints s nRetx + Z.of_nat (sends [ev])).
Proof.
  intros Hev. unfold sends.
  handle_cases Hev; simpl; rewrite ?Z.add_0_r; try reflexivity; wrap_arith.
Qed.

(** X18: every send event is counted exactly once, as a new packet or as a
    retransmission: over any run [nSent + nRetx] grows by the number of
    send events of the run (in [int] arithmetic), and no other event
    changes the sum. *)
Theorem run_send_events_counted (cfg : Config) (evs : list Event) (s s' : State) :
  run cfg evs s = Some s' ->
  Int.wrap32 (ints s' nSent + ints s' nRetx)
  = Int.wrap32 (ints s nSent + ints s nRetx + Z.of_nat (sends evs)).
Proof.
  revert s. induction evs as [|ev evs IH]; intros s Hrun; simpl in Hrun.
  - injection Hrun as <-. unfold sends. simpl. by rewrite Z.add_0_r.
  - destruct (handle cfg ev s) as [s1|] eqn:Hev; [|discriminate Hrun].
    simpl in Hrun. rewrite (IH s1 Hrun).
    pose proof (handle_send_count cfg ev s s1 Hev) as Hstep.
    assert (Z.of_nat (sends (ev :: evs))
            = Z.of_nat (sends [ev]) + Z.of_nat (sends evs)) as ->.
    { unfold sends. simpl. destruct (is_send ev); simpl; lia. }
    rewrite <- (wrap32_add_l (ints s1 nSent + ints s1 nRetx)), Hstep, wrap32_add_l.
    f_equal. lia.
Qed.

Lemma run_send_events_counted_witness :
  exists s',
    run default_config resolved_trace three_devices = Some s'
    /\ Int.wrap32 (ints s' nSent + ints s' nRetx)
       = Int.wrap32 (ints three_devices nSent + ints three_devices nRetx
                     + Z.of_nat (sends resolved_trace)).
Proof.
  destruct (run default_config resolved_trace three_devices) as [s'|] eqn:E;
    [|vm_compute in E; discriminate E].
  exists s'. split; [reflexivity|].
  exact (run_send_events_counted default_config resolved_trace three_devices s' E).
Defined.

Lemma sized_step cfg n ev s s' :
  sized n s -> handle cfg ev s = Some s' -> sized n s'.
Proof.
  intros [Halloc Hlen] Hev. split; [by eapply handle_allocated|].
  rewrite <- Hlen. clear Halloc Hlen.
  handle_cases Hev; simpl; rewrite ?length_insert; reflexivity.
Qed.

(** X19: the vectors keep their sizes over every run from program start:
    each table per spreading factor has its six buckets, [delayPerApp] its
    two sums, and the device container its devices. *)
Theorem run_keeps_sizes (cfg : Config) (devs : list Z) (evs : list Event)
    (s : State) :
  run cfg evs (initial_state devs) = Some s ->
  (forall v, length (ivecs s v) = 6%nat)
  /\ length (delayPerApp s) = 2%nat
  /\ length (endDevices s) = length devs.
Proof.
  intros Hrun.
  destruct (run_invariant cfg (sized (length devs)) evs (initial_state devs) s)
    as [[Hvec Hdpa] Hlen]; [|intros ev s1 s2; apply sized_step|exact Hrun|done].
  split; [apply allocated_initial | reflexivity].
Qed.

Lemma run_keeps_sizes_witness :
  exists s,
    run asfa_config [EvSent 0 imr_packet 2; EvInterf imr_packet 0;
                     EvOk 1000000000 imr_packet 0] three_devices = Some s
    /\ (forall v, length (ivecs s v) = 6%nat)
    /\ length (delayPerApp s) = 2%nat
    /\ length (endDevices s) = length [0; 0; 0].
Proof.
  destruct (run asfa_config [EvSent 0 imr_packet 2; EvInterf imr_packet 0;
                             EvOk 1000000000 imr_packet 0] three_devices)
    as [s|] eqn:E; [|vm_compute in E; discriminate E].
  exists s. split; [reflexivity|].
  exact (run_keeps_sizes asfa_config [0; 0; 0] _ s E).
Defined.

(** The devices per bucket for data rates 5, 0 and 3 and powers 0, 1, 2. *)
Example hits_of_three :
  map (sf_hits [5; 0; 3] (seq 0 3)) (seq 0 6) = [1; 0; 1; 0; 0; 1]%nat
  /\ map (tp_hits (fun i => Z.of_nat i) (seq 0 3)) (seq 0 4) = [1; 1; 0; 0]%nat.
Proof. vm_compute. done. Qed.
